(** * waitlist-pow-solver: the proof-of-work solver and its orchestrator

    A shallow embedding of [src/solver.ts] (the TypeScript module listed after
    the README) and of the action of [src/cli.ts], with the properties the
    specification states about them and further ones read off the code.

    Conventions of the embedding.
    - A JavaScript string is a Rocq [string] holding its UTF-8 bytes, which
      is what [update(input, 'utf8')] feeds to the digest.
    - A JavaScript number is a mathematical integer ([Z]); fractional values
      and the rounding of doubles are outside the model, and a property that
      prints a number which nothing else bounds asks for [safe_integer].
    - The values are those a parsed JSON body can hold. None is a function,
      so an object with a field of its own named [toString] cannot be
      converted to a string: [String_of_value] throws for it.
    - Code that can throw returns an [outcome]; asynchronous code threads a
      [World] (requests sent, lines written, clock reads, timers) and awaits
      are sequenced by the bind of the [Run] monad. *)

From Stdlib Require Import ZArith List String Ascii Bool Lia.
From Stdlib Require Import DecimalString DecimalPos DecimalZ.
Import ListNotations.
Open Scope Z_scope.
Open Scope string_scope.

(* ------------------------------------------------------------------------- *)
(** ** SHA-256 (FIPS 180-4), the digest behind [createHash('sha256')] *)
(* ------------------------------------------------------------------------- *)

Module SHA256.

Definition mask32 : Z := 0xffffffff.

Definition add32 (a b : Z) : Z := Z.land (a + b) mask32.

Definition rotr (n x : Z) : Z :=
  Z.land (Z.lor (Z.shiftr x n) (Z.shiftl x (32 - n))) mask32.

Definition shr (n x : Z) : Z := Z.shiftr x n.

Definition not32 (x : Z) : Z := Z.lxor x mask32.

Definition Ch (x y z : Z) : Z := Z.lxor (Z.land x y) (Z.land (not32 x) z).

Definition Maj (x y z : Z) : Z :=
  Z.lxor (Z.lxor (Z.land x y) (Z.land x z)) (Z.land y z).

Definition Sigma0 (x : Z) : Z :=
  Z.lxor (Z.lxor (rotr 2 x) (rotr 13 x)) (rotr 22 x).

Definition Sigma1 (x : Z) : Z :=
  Z.lxor (Z.lxor (rotr 6 x) (rotr 11 x)) (rotr 25 x).

Definition sigma0 (x : Z) : Z :=
  Z.lxor (Z.lxor (rotr 7 x) (rotr 18 x)) (shr 3 x).

Definition sigma1 (x : Z) : Z :=
  Z.lxor (Z.lxor (rotr 17 x) (rotr 19 x)) (shr 10 x).

(** The constants are defined as the standard defines them, from the first
    primes: the first 32 bits of the fractional part of a cube root (round
    constants) or of a square root (initial hash value). *)
Definition is_prime (n : Z) : bool :=
  ((1 <? n)%Z &&
   forallb (fun d => negb (n mod d =? 0)%Z)
           (map Z.of_nat (seq 2 (Z.to_nat n - 2))))%bool.

(** The primes up to 311, which are the first sixty-four. *)
Definition primes : list Z :=
  Eval vm_compute in filter is_prime (map Z.of_nat (seq 2 310)).

(** The largest [r] below [2 ^ bits] with [r ^ 3 <= n]. *)
Fixpoint cube_root (bits : nat) (n : Z) : Z :=
  match bits with
  | O => 0
  | S b =>
      let r := cube_root b (Z.shiftr n 3) in
      let low := 2 * r in
      if ((low + 1) * (low + 1) * (low + 1) <=? n)%Z then low + 1 else low
  end.

Definition fraction_of_cube_root (p : Z) : Z :=
  Z.land (cube_root 36 (Z.shiftl p 96)) mask32.

Definition fraction_of_square_root (p : Z) : Z :=
  Z.land (Z.sqrt (Z.shiftl p 64)) mask32.

Definition K : list Z := Eval vm_compute in map fraction_of_cube_root primes.

(** The eight working variables, also the running hash value. *)
Record state : Type := mkState {
  ha : Z; hb : Z; hc : Z; hd : Z; he : Z; hf : Z; hg : Z; hh : Z
}.

Definition state_of_list (l : list Z) : state :=
  mkState (nth 0 l 0) (nth 1 l 0) (nth 2 l 0) (nth 3 l 0)
          (nth 4 l 0) (nth 5 l 0) (nth 6 l 0) (nth 7 l 0).

Definition H0 : state :=
  Eval vm_compute in state_of_list (map fraction_of_square_root (firstn 8 primes)).

(** Bytes of the input, as numbers below 256. *)
Definition bytes_of_string (s : string) : list Z :=
  map (fun c => Z.of_N (N_of_ascii c)) (list_ascii_of_string s).

(** Big-endian bytes of [x], [n] of them. *)
Fixpoint be_bytes (n : nat) (x : Z) : list Z :=
  match n with
  | O => []
  | S n' => be_bytes n' (Z.shiftr x 8) ++ [Z.land x 0xff]
  end.

(** Padding: a 1 bit, zeros up to 56 modulo 64 bytes, the bit length. *)
Definition pad (msg : list Z) : list Z :=
  let len := Z.of_nat (List.length msg) in
  let zeros := Z.to_nat ((55 - len) mod 64) in
  msg ++ [0x80] ++ List.repeat 0 zeros ++ be_bytes 8 (8 * len).

(** Big-endian 32-bit words of a byte list (a trailing partial word is
    dropped; padded input has none). *)
Fixpoint words_of_bytes (bs : list Z) : list Z :=
  match bs with
  | b0 :: b1 :: b2 :: b3 :: rest =>
      (Z.lor (Z.shiftl b0 24) (Z.lor (Z.shiftl b1 16) (Z.lor (Z.shiftl b2 8) b3)))
        :: words_of_bytes rest
  | _ => []
  end.

(** The message schedule: [extend n w] appends [n] words to [w]. *)
Fixpoint extend (n : nat) (w : list Z) : list Z :=
  match n with
  | O => w
  | S n' =>
      let t := List.length w in
      let wt := add32 (add32 (sigma1 (nth (t - 2) w 0)) (nth (t - 7) w 0))
                      (add32 (sigma0 (nth (t - 15) w 0)) (nth (t - 16) w 0)) in
      extend n' (w ++ [wt])
  end.

Definition round (s : state) (kw : Z * Z) : state :=
  let (k, w) := kw in
  let t1 := add32 (add32 (add32 (hh s) (Sigma1 (he s)))
                         (add32 (Ch (he s) (hf s) (hg s)) k)) w in
  let t2 := add32 (Sigma0 (ha s)) (Maj (ha s) (hb s) (hc s)) in
  mkState (add32 t1 t2) (ha s) (hb s) (hc s)
          (add32 (hd s) t1) (he s) (hf s) (hg s).

Definition compress (h : state) (block : list Z) : state :=
  let w := extend 48 block in
  let s := fold_left round (combine K w) h in
  mkState (add32 (ha h) (ha s)) (add32 (hb h) (hb s))
          (add32 (hc h) (hc s)) (add32 (hd h) (hd s))
          (add32 (he h) (he s)) (add32 (hf h) (hf s))
          (add32 (hg h) (hg s)) (add32 (hh h) (hh s)).

(** Hash the word list sixteen words at a time; [n] bounds the number of
    blocks. *)
Fixpoint blocks (n : nat) (h : state) (ws : list Z) : state :=
  match n, ws with
  | S n', _ :: _ => blocks n' (compress h (firstn 16 ws)) (skipn 16 ws)
  | _, _ => h
  end.

Definition hash (msg : list Z) : state :=
  let ws := words_of_bytes (pad msg) in
  blocks (List.length ws) H0 ws.

Definition hex_digit (n : Z) : ascii :=
  match String.get (Z.to_nat (Z.land n 15)) "0123456789abcdef" with
  | Some c => c
  | None => "0"%char
  end.

(** Eight lowercase hex digits of a 32-bit word. *)
Definition hex_word (w : Z) : string :=
  String (hex_digit (Z.shiftr w 28))
 (String (hex_digit (Z.shiftr w 24))
 (String (hex_digit (Z.shiftr w 20))
 (String (hex_digit (Z.shiftr w 16))
 (String (hex_digit (Z.shiftr w 12))
 (String (hex_digit (Z.shiftr w 8))
 (String (hex_digit (Z.shiftr w 4))
 (String (hex_digit w) EmptyString))))))).

Definition hex_of_state (s : state) : string :=
  hex_word (ha s) ++ hex_word (hb s) ++ hex_word (hc s) ++ hex_word (hd s) ++
  hex_word (he s) ++ hex_word (hf s) ++ hex_word (hg s) ++ hex_word (hh s).

Definition hexdigest (input : string) : string :=
  hex_of_state (hash (bytes_of_string input)).

End SHA256.

(* ------------------------------------------------------------------------- *)
(** ** JavaScript values, thrown values and outcomes *)
(* ------------------------------------------------------------------------- *)

(** The values a parsed JSON body can hold, and [undefined], which a
    property read yields for a missing key. *)
#[warnings="-register-all"]
Inductive value : Type :=
  | VUndefined
  | VNull
  | VBool (b : bool)
  | VNum (n : Z)
  | VStr (s : string)
  | VArr (items : list value)
  | VObj (fields : list (string * value)).

(** What a [throw] or a rejected promise carries: an [Error] instance (with
    its constructor name and message) or any other value. *)
Inductive exn : Type :=
  | ErrorObj (name message : string)
  | Thrown (v : value).

Inductive outcome (A : Type) : Type :=
  | Returns (a : A)
  | Throws (e : exn).
Arguments Returns {A} a.
Arguments Throws {A} e.

Definition obind {A B : Type} (m : outcome A) (k : A -> outcome B) : outcome B :=
  match m with
  | Returns a => k a
  | Throws e => Throws e
  end.

Declare Scope outcome_scope.
Delimit Scope outcome_scope with outcome.
Notation "x <- m ;; k" := (obind m (fun x => k))
  (at level 61, m at next level, right associativity) : outcome_scope.

(** [String(n)] of a safe integer: its decimal digits. From 2^53 on the
    language prints the shortest digits that read back as the number, with
    an exponent from 10^21 on, which this does not follow. *)
Definition String_of_number (n : Z) : string :=
  NilZero.string_of_int (Z.to_int n).

(** [Number.isSafeInteger(n)] *)
Definition safe_integer (n : Z) : Prop := - 2 ^ 53 < n < 2 ^ 53.

(** The two results of the runtime's conversion of a string to a repeat
    count that matter to [repeat]: an integer or an infinity. *)
Inductive integer_or_infinity : Type :=
  | Finite (n : Z)
  | PlusInfinity
  | MinusInfinity.

(** The string a conversion gives when it returns. This is not the
    conversion itself, which can throw: the code's [String(v)] and
    [`${v}`] are [String_of_value] below, which gives this string only for
    a value that [converts]. An array joins its items with commas, [null]
    and [undefined] items as empty. *)
Fixpoint ToString (v : value) : string :=
  match v with
  | VUndefined => "undefined"
  | VNull => "null"
  | VBool true => "true"
  | VBool false => "false"
  | VNum n => String_of_number n
  | VStr s => s
  | VArr items =>
      (fix join (l : list value) : string :=
         match l with
         | [] => ""
         | x :: rest =>
             match x with
             | VUndefined | VNull => ""
             | _ => ToString x
             end ++
             match rest with
             | [] => ""
             | _ :: _ => "," ++ join rest
             end
         end) items
  | VObj _ => "[object Object]"
  end.

(** Whether a field named [key] is among [fields]. *)
Definition has_key (key : string) (fields : list (string * value)) : bool :=
  existsb (fun entry => String.eqb (fst entry) key) fields.

(** Whether the conversion of a value to a primitive returns. A parsed body
    holds no function: when an object has a field of its own named
    [toString], that field is not callable, [valueOf] (its own and not
    callable, or inherited and returning the object) gives no primitive
    either, and the conversion throws. An array converts its items. *)
Fixpoint converts (v : value) : bool :=
  match v with
  | VArr items =>
      (fix all (l : list value) : bool :=
         match l with
         | [] => true
         | x :: rest => converts x && all rest
         end) items
  | VObj fields => negb (has_key "toString" fields)
  | _ => true
  end.

(** The [TypeError] of a conversion that finds no primitive. *)
Definition cannot_convert : exn :=
  ErrorObj "TypeError" "Cannot convert object to primitive value".

(** [String(v)] and [`${v}`] *)
Definition String_of_value (v : value) : outcome string :=
  if converts v then Returns (ToString v) else Throws cannot_convert.

(** [ToBoolean], as [!x] applies it. *)
Definition ToBoolean (v : value) : bool :=
  match v with
  | VUndefined | VNull => false
  | VBool b => b
  | VNum n => negb (n =? 0)%Z
  | VStr s => negb (String.eqb s "")
  | VArr _ | VObj _ => true
  end.

Fixpoint lookup (key : string) (fields : list (string * value)) : value :=
  match fields with
  | [] => VUndefined
  | (k, v) :: rest => if String.eqb k key then v else lookup key rest
  end.

(** [v.key] for the keys this module reads ([pow_required], [challenge],
    [difficulty], [success], [position], [error]): none of them is inherited
    from a prototype, so only an object's own field can answer; reading a
    property of [null] or [undefined] is a [TypeError]. *)
Definition Get (v : value) (key : string) : outcome value :=
  match v with
  | VUndefined | VNull =>
      Throws (ErrorObj "TypeError"
                ("Cannot read properties of " ++ ToString v ++
                 " (reading '" ++ key ++ "')"))
  | VObj fields => Returns (lookup key fields)
  | _ => Returns VUndefined
  end.

(** Whether [v] is [null] or [undefined]. *)
Definition nullish (v : value) : bool :=
  match v with
  | VUndefined | VNull => true
  | _ => false
  end.

(** The field [key] of a value that is not nullish. *)
Definition field (v : value) (key : string) : value :=
  match v with
  | VObj fields => lookup key fields
  | _ => VUndefined
  end.

(** The message of what was thrown, when it can be read: [err.message] of
    an [Error], the string of another value. The expression of the [catch]
    clauses, which can throw, is [caught_message] below. *)
Definition error_message (err : exn) : string :=
  match err with
  | ErrorObj _ message => message
  | Thrown v => ToString v
  end.

(** [err instanceof Error ? err.message : String(err)] *)
Definition caught_message (err : exn) : outcome string :=
  match err with
  | ErrorObj _ message => Returns message
  | Thrown v => String_of_value v
  end.

(** [s.startsWith(prefix)] *)
Definition startsWith (s prefix : string) : bool := String.prefix prefix s.

Fixpoint repeat_string (s : string) (count : nat) : string :=
  match count with
  | O => ""
  | S c => s ++ repeat_string s c
  end.

(** Number of leading ['0'] characters of a string. *)
Fixpoint leading_zeros (s : string) : nat :=
  match s with
  | EmptyString => O
  | String c rest =>
      if Ascii.eqb c "0" then S (leading_zeros rest) else O
  end.

(* ------------------------------------------------------------------------- *)
(** ** The solver *)
(* ------------------------------------------------------------------------- *)

(** [sha256(input)]: [createHash('sha256').update(input, 'utf8').digest('hex')] *)
Definition sha256 (input : string) : string := SHA256.hexdigest input.

(** The default of [solveChallenge]'s third parameter. *)
Definition maxIterations_default : Z := 10000000.

(** The [for] loop of [solveChallenge]: [remaining] iterations are left,
    starting at [nonce]. [None] stands for leaving the loop at its bound. *)
Fixpoint solve_loop (challenge prefix : string) (remaining : nat) (nonce : Z)
  : option (string * string) :=
  match remaining with
  | O => None
  | S r =>
      let hash := sha256 (challenge ++ String_of_number nonce) in
      if startsWith hash prefix
      then Some (String_of_number nonce, hash)
      else solve_loop challenge prefix r (nonce + 1)
  end.

(** The message of the error [solveChallenge] throws when the loop ends
    without a solution; [difficulty] is the text of the difficulty. *)
Definition exhausted_message (maxIterations : Z) (difficulty : string) : string :=
  "solveChallenge: no solution found within " ++ String_of_number maxIterations ++
  " iterations (difficulty " ++ difficulty ++ ")".

(** The longest string of the engine ([String::kMaxLength] of V8 on a
    64-bit platform, which Node.js runs on); the language leaves the limit
    to the engine. *)
Definition max_string_length : Z := 2 ^ 29 - 24.

Section Runtime.

(** The runtime's reading of a string as a number, truncated to an integer
    (not-a-number counting as 0): it decides [repeat]'s count when the
    count is not a number already. Left abstract. *)
Variable StringToInteger : string -> integer_or_infinity.

(** [ToIntegerOrInfinity(count)] of [String.prototype.repeat]: an object or
    an array is converted to a primitive first, which can throw. *)
Definition ToIntegerOrInfinity (v : value) : outcome integer_or_infinity :=
  match v with
  | VUndefined => Returns (Finite 0)
  | VNull => Returns (Finite 0)
  | VBool b => Returns (Finite (if b then 1 else 0))
  | VNum n => Returns (Finite n)
  | VStr s => Returns (StringToInteger s)
  | VArr _ | VObj _ =>
      (s <- String_of_value v ;; Returns (StringToInteger s))%outcome
  end.

(** [s.repeat(count)]: a negative or infinite count is a [RangeError], and
    so is a result longer than the engine allows. *)
Definition String_repeat (s : string) (count : value) : outcome string :=
  (n <- ToIntegerOrInfinity count ;;
   match n with
   | Finite n =>
       if (n <? 0)%Z
       then Throws (ErrorObj "RangeError" ("Invalid count value: " ++ ToString count))
       else if (max_string_length <? n * Z.of_nat (String.length s))%Z
            then Throws (ErrorObj "RangeError" "Invalid string length")
            else Returns (repeat_string s (Z.to_nat n))
   | PlusInfinity | MinusInfinity =>
       Throws (ErrorObj "RangeError" ("Invalid count value: " ++ ToString count))
   end)%outcome.

(** [solveChallenge(challenge, difficulty, maxIterations)]. The type
    annotations are erased at run time and [solveAndSubmit] passes fields
    of an unvalidated body, so both arguments are values: [repeat] converts
    [difficulty], and the template literal converts [challenge] in each
    iteration, to the same string or with the same exception every time,
    so that the conversion is made once here, when the loop has a first
    iteration. *)
Definition solveChallenge (challenge difficulty : value) (maxIterations : Z)
  : outcome (string * string) :=
  (prefix <- String_repeat "0" difficulty ;;
   found <- (if (0 <? maxIterations)%Z
             then token <- String_of_value challenge ;;
                  Returns (solve_loop token prefix (Z.to_nat maxIterations) 0)
             else Returns None) ;;
   match found with
   | Some solution => Returns solution
   | None =>
       text <- String_of_value difficulty ;;
       Throws (ErrorObj "Error" (exhausted_message maxIterations text))
   end)%outcome.

End Runtime.

(* ------------------------------------------------------------------------- *)
(** ** The world of an attempt: network, clock, standard output, timers *)
(* ------------------------------------------------------------------------- *)

(** A call of [fetch]: [fetch(url, { signal })] is a [GET] without headers
    or body. The abort signal is not part of the record: an abort is one of
    the ways the call can reject. *)
Record Request : Type := mkRequest {
  method : string;
  target : string;
  headers : list (string * string);
  body : option string
}.

(** What the module uses of a [Response]: [status], and what the promises
    of [json()] and [text()] settle to. *)
Record Response : Type := mkResponse {
  status : Z;
  json : outcome value;
  text : outcome string
}.

(** [res.ok]: the status is in the range 200-299 (Fetch standard). *)
Definition ok (res : Response) : bool :=
  ((200 <=? status res) && (status res <=? 299))%Z.

Record World : Type := mkWorld {
  sent : list Request;        (* the calls of fetch so far, oldest first *)
  stdout : list string;       (* what was written to process.stdout *)
  clock_reads : nat;          (* number of calls of Date.now() so far *)
  timers_set : nat;           (* number of timers created so far *)
  timers_active : list nat    (* the timers neither fired nor cleared *)
}.

(** The environment of a run: how the network settles a call, given the
    earlier calls, and what the clock shows at each read. *)
Record Env : Type := mkEnv {
  net : list Request -> Request -> outcome Response;
  clock : nat -> Z
}.

(** A computation that changes the world and returns or throws; [await]ing
    a promise is the bind of this monad. *)
Definition Run (A : Type) : Type := World -> World * outcome A.

Definition ret {A : Type} (a : A) : Run A := fun w => (w, Returns a).

Definition throw {A : Type} (e : exn) : Run A := fun w => (w, Throws e).

Definition bind {A B : Type} (m : Run A) (k : A -> Run B) : Run B :=
  fun w =>
    match m w with
    | (w', Returns a) => k a w'
    | (w', Throws e) => (w', Throws e)
    end.

(** A value already computed, or a settled promise. *)
Definition lift {A : Type} (o : outcome A) : Run A := fun w => (w, o).

(** [try { m } catch (err) { handler err }] *)
Definition try_catch {A : Type} (m : Run A) (handler : exn -> Run A) : Run A :=
  fun w =>
    match m w with
    | (w', Returns a) => (w', Returns a)
    | (w', Throws e) => handler e w'
    end.

(** [try { m } finally { cleanup }] *)
Definition try_finally {A : Type} (m : Run A) (cleanup : Run unit) : Run A :=
  fun w =>
    match m w with
    | (w', r) =>
        match cleanup w' with
        | (w'', Returns _) => (w'', r)
        | (w'', Throws e) => (w'', Throws e)
        end
    end.

Declare Scope run_scope.
Delimit Scope run_scope with run.
Notation "x <- m ;; k" := (bind m (fun x => k))
  (at level 61, m at next level, right associativity) : run_scope.
Notation "m ;; k" := (bind m (fun _ => k))
  (at level 61, right associativity) : run_scope.

Definition fetch (env : Env) (req : Request) : Run Response :=
  fun w =>
    (mkWorld (sent w ++ [req]) (stdout w) (clock_reads w)
             (timers_set w) (timers_active w),
     net env (sent w) req).

Definition Date_now (env : Env) : Run Z :=
  fun w =>
    (mkWorld (sent w) (stdout w) (S (clock_reads w))
             (timers_set w) (timers_active w),
     Returns (clock env (clock_reads w))).

Definition stdout_write (chunk : string) : Run unit :=
  fun w =>
    (mkWorld (sent w) (stdout w ++ [chunk]) (clock_reads w)
             (timers_set w) (timers_active w),
     Returns tt).

(** [setTimeout(callback, delay)] returns the identifier of the new timer.
    The callback here aborts the pending call, which the environment shows
    as a rejection of [fetch]. *)
Definition setTimeout (delay : Z) : Run nat :=
  fun w =>
    (mkWorld (sent w) (stdout w) (clock_reads w)
             (S (timers_set w)) (timers_set w :: timers_active w),
     Returns (timers_set w)).

Definition clearTimeout (timer : nat) : Run unit :=
  fun w =>
    (mkWorld (sent w) (stdout w) (clock_reads w) (timers_set w)
             (filter (fun t => negb (Nat.eqb t timer)) (timers_active w)),
     Returns tt).

Definition newline : string := String "010"%char EmptyString.

(** [log(verbose, message)] *)
Definition log (verbose : bool) (message : string) : Run unit :=
  if verbose
  then stdout_write ("[solver] " ++ message ++ newline)
  else ret tt.

(* ------------------------------------------------------------------------- *)
(** ** [JSON.stringify] *)
(* ------------------------------------------------------------------------- *)

Definition backslash : ascii := "092"%char.
Definition dquote : ascii := "034"%char.

Definition escape (c : ascii) : string := String backslash (String c EmptyString).

(** One character of a quoted JSON string. Bytes from 128 up belong to a
    multi-byte character and are copied. *)
Definition quote_char (c : ascii) : string :=
  let n := Z.of_N (N_of_ascii c) in
  if (n =? 34)%Z then escape dquote
  else if (n =? 92)%Z then escape backslash
  else if (n =? 8)%Z then escape "b"
  else if (n =? 12)%Z then escape "f"
  else if (n =? 10)%Z then escape "n"
  else if (n =? 13)%Z then escape "r"
  else if (n =? 9)%Z then escape "t"
  else if (n <? 32)%Z
       then escape "u" ++ "00" ++
            String (SHA256.hex_digit (Z.shiftr n 4))
                   (String (SHA256.hex_digit n) EmptyString)
       else String c EmptyString.

Fixpoint quote_chars (s : string) : string :=
  match s with
  | EmptyString => EmptyString
  | String c rest => quote_char c ++ quote_chars rest
  end.

Definition quote (s : string) : string :=
  String dquote (quote_chars s ++ String dquote EmptyString).

Fixpoint join_with (sep : string) (parts : list string) : string :=
  match parts with
  | [] => ""
  | [p] => p
  | p :: rest => p ++ sep ++ join_with sep rest
  end.

(** [JSON.stringify(v)]; [None] is the [undefined] it returns for
    [undefined]. An object's [undefined] fields are left out, an array's
    are written as [null]. *)
Fixpoint JSON_stringify (v : value) : option string :=
  match v with
  | VUndefined => None
  | VNull => Some "null"
  | VBool true => Some "true"
  | VBool false => Some "false"
  | VNum n => Some (String_of_number n)
  | VStr s => Some (quote s)
  | VArr items =>
      Some ("[" ++
            join_with ","
              ((fix each (l : list value) : list string :=
                  match l with
                  | [] => []
                  | x :: rest =>
                      match JSON_stringify x with
                      | Some s => s
                      | None => "null"
                      end :: each rest
                  end) items) ++ "]")
  | VObj fields =>
      Some ("{" ++
            join_with ","
              ((fix each (l : list (string * value)) : list string :=
                  match l with
                  | [] => []
                  | (k, x) :: rest =>
                      match JSON_stringify x with
                      | Some s => (quote k ++ ":" ++ s) :: each rest
                      | None => each rest
                      end
                  end) fields) ++ "}")
  end.

(* ------------------------------------------------------------------------- *)
(** ** The public API: [fetchChallenge] and [solveAndSubmit] *)
(* ------------------------------------------------------------------------- *)

(** Shape of the challenge response returned by the waitlist worker. *)
Record ChallengeResponse : Type := mkChallengeResponse {
  pow_required : bool;
  challenge : string;
  difficulty : Z
}.

(** Options accepted by [solveAndSubmit]; [None] is an omitted option. *)
Record SolveOptions : Type := mkSolveOptions {
  url : string;
  email : string;
  timeout : option Z;
  verbose : option bool
}.

(** Result returned by [solveAndSubmit]; [None] is a field the object does
    not have. *)
Record SolveResult : Type := mkSolveResult {
  success : bool;
  position : option value;
  error : option value
}.

(** [{ success: false, error }] *)
Definition failure (err : value) : SolveResult :=
  mkSolveResult false None (Some err).

Definition GET_request (url : string) : Request :=
  mkRequest "GET" url [] None.

(** The call that submits the registration. *)
Definition POST_request (url email nonce hash : string) : Request :=
  mkRequest "POST" url [("Content-Type", "application/json")]
    (JSON_stringify
       (VObj [("email", VStr email); ("nonce", VStr nonce); ("solution", VStr hash)])).

(** [a ?? b] *)
Definition nullish_coalesce (a b : value) : value :=
  match a with
  | VUndefined | VNull => b
  | _ => a
  end.

(** [v === false] *)
Definition is_false (v : value) : bool :=
  match v with
  | VBool false => true
  | _ => false
  end.

(** [v != null] *)
Definition not_nullish (v : value) : bool :=
  match v with
  | VUndefined | VNull => false
  | _ => true
  end.

Section API.

Variable StringToInteger : string -> integer_or_infinity.
Variable env : Env.

(** [fetchChallenge(url, signal)]. The cast [as ChallengeResponse] does
    nothing at run time: the parsed body is returned as it is. *)
Definition fetchChallenge (url : string) : Run value :=
  (res <- fetch env (GET_request url) ;;
   if negb (ok res)
   then throw (ErrorObj "Error"
                 ("GET " ++ url ++ " responded with HTTP " ++
                  String_of_number (status res)))
   else
     data <- lift (json res) ;;
     ret data)%run.

(** [position != null ? `<opening>${position})` : ''], the end of both
    success texts. *)
Definition position_suffix (opening : string) (position : value)
  : outcome string :=
  if not_nullish position
  then (text <- String_of_value position ;;
        Returns (opening ++ text ++ ")"))%outcome
  else Returns "".

(** The [try] block of [solveAndSubmit]. The arguments of [log] are
    evaluated before it is called, whatever [verbose] is. *)
Definition solveAndSubmit_try (url email : string) (verbose : bool)
  : Run SolveResult :=
  ((* 1. Fetch challenge *)
   log verbose ("Fetching challenge from " ++ url ++ " …") ;;
   challengeData <- fetchChallenge url ;;
   pow_required <- lift (Get challengeData "pow_required") ;;
   (if negb (ToBoolean pow_required)
    then log verbose "No POW challenge required — submitting directly …"
    else
      difficulty <- lift (Get challengeData "difficulty") ;;
      text <- lift (String_of_value difficulty) ;;
      log verbose ("Difficulty: " ++ text ++ " leading zero(s)")) ;;
   (* 2. Solve the proof-of-work *)
   startMs <- Date_now env ;;
   challenge <- lift (Get challengeData "challenge") ;;
   difficulty <- lift (Get challengeData "difficulty") ;;
   solution <- lift (solveChallenge StringToInteger challenge difficulty
                                    maxIterations_default) ;;
   let (nonce, hash) := solution in
   endMs <- Date_now env ;;
   let elapsedMs := (endMs - startMs)%Z in
   log verbose ("Challenge solved in " ++ String_of_number elapsedMs ++
                " ms  (nonce: " ++ nonce ++ ", hash: " ++ hash ++ ")") ;;
   (* 3. Submit registration *)
   log verbose ("Submitting entry for " ++ email ++ " …") ;;
   postRes <- fetch env (POST_request url email nonce hash) ;;
   if negb (ok postRes)
   then
     text <- try_catch (lift (text postRes)) (fun _ => ret "") ;;
     ret (failure (VStr ("POST " ++ url ++ " responded with HTTP " ++
                         String_of_number (status postRes) ++ ": " ++ text)))
   else
     result <- lift (json postRes) ;;
     result_success <- lift (Get result "success") ;;
     if is_false result_success
     then
       result_error <- lift (Get result "error") ;;
       ret (failure (nullish_coalesce result_error
                       (VStr "Server returned success: false")))
     else
       result_position <- lift (Get result "position") ;;
       suffix <- lift (position_suffix " (position #" result_position) ;;
       log verbose ("✓ Successfully joined the waitlist" ++ suffix) ;;
       ret (mkSolveResult true (Some result_position) None))%run.

(** [solveAndSubmit(options)] *)
Definition solveAndSubmit (options : SolveOptions) : Run SolveResult :=
  let timeout := match timeout options with Some t => t | None => 5000%Z end in
  let verbose := match verbose options with Some b => b | None => false end in
  (timer <- setTimeout timeout ;;
   try_finally
     (try_catch
        (solveAndSubmit_try (url options) (email options) verbose)
        (fun err =>
           message <- lift (caught_message err) ;;
           ret (failure (VStr message))))
     (clearTimeout timer))%run.

End API.

(* ------------------------------------------------------------------------- *)
(** ** Notions the properties are stated with *)
(* ------------------------------------------------------------------------- *)

(** The digest of [token] followed by the decimal nonce [n] has at least
    [d] leading ['0'] characters. *)
Definition meets (token : string) (d n : Z) : Prop :=
  d <= Z.of_nat (leading_zeros (sha256 (token ++ String_of_number n))).

(** [part] occurs in [s]. *)
Definition includes (s part : string) : Prop :=
  exists before after : string, s = before ++ part ++ after.

(** [await postRes.text().catch(() => '')]: the body text when there is
    one. *)
Definition body_text (postRes : Response) : string :=
  match text postRes with
  | Returns t => t
  | Throws _ => ""
  end.

(** The parsed body that has this shape. *)
Definition value_of_challenge (c : ChallengeResponse) : value :=
  VObj [("pow_required", VBool (pow_required c));
        ("challenge", VStr (challenge c));
        ("difficulty", VNum (difficulty c))].

(** Whether a parsed body has the shape of a [ChallengeResponse]. *)
Definition is_ChallengeResponse (v : value) : bool :=
  match v with
  | VObj fields =>
      match lookup "pow_required" fields, lookup "challenge" fields,
            lookup "difficulty" fields with
      | VBool _, VStr _, VNum _ => true
      | _, _, _ => false
      end
  | _ => false
  end.

(** What the [catch] clause of [solveAndSubmit] makes of an outcome. *)
Definition settle (o : outcome SolveResult) : outcome SolveResult :=
  match o with
  | Returns r => Returns r
  | Throws err =>
      (message <- caught_message err ;; Returns (failure (VStr message)))%outcome
  end.

(** What the submit step makes of the response to the [POST]. *)
Definition submit_result (url : string) (postRes : Response) : outcome SolveResult :=
  if negb (ok postRes)
  then
    Returns (failure (VStr ("POST " ++ url ++ " responded with HTTP " ++
                            String_of_number (status postRes) ++ ": " ++
                            body_text postRes)))
  else
    (result <- json postRes ;;
     result_success <- Get result "success" ;;
     if is_false result_success
     then
       result_error <- Get result "error" ;;
       Returns (failure (nullish_coalesce result_error
                           (VStr "Server returned success: false")))
     else
       result_position <- Get result "position" ;;
       _ <- position_suffix " (position #" result_position ;;
       Returns (mkSolveResult true (Some result_position) None))%outcome.

(** The values whose conversion to a string is the one written here: the
    primitives, a number being a safe integer. *)
Definition prints_exactly (v : value) : Prop :=
  match v with
  | VNum n => safe_integer n
  | VArr _ | VObj _ => False
  | _ => True
  end.


(** The two shapes of a result. *)
Definition well_shaped (r : SolveResult) : Prop :=
  (exists err, r = failure err) \/
  (exists pos, r = mkSolveResult true (Some pos) None).

(** [w'] is [w] with the calls [reqs] added and the same timers. *)
Definition extends (w w' : World) (reqs : list Request) : Prop :=
  sent w' = (sent w ++ reqs)%list /\
  timers_set w' = timers_set w /\
  timers_active w' = timers_active w.

(** Running [m] from [w] ends in a world and an outcome that satisfy [Q]. *)
Definition wp {A : Type} (m : Run A) (w : World)
           (Q : World -> outcome A -> Prop) : Prop :=
  Q (fst (m w)) (snd (m w)).

Section Stages.

Variable StringToInteger : string -> integer_or_infinity.
Variable env : Env.

(** The challenge [fetchChallenge] yields after the calls of [history]. *)
Definition challenge_of (url : string) (history : list Request) : outcome value :=
  (res <- net env history (GET_request url) ;;
   if negb (ok res)
   then Throws (ErrorObj "Error"
                  ("GET " ++ url ++ " responded with HTTP " ++
                   String_of_number (status res)))
   else json res)%outcome.

(** The solution computed from that challenge. *)
Definition solution_of (url : string) (history : list Request)
  : outcome (string * string) :=
  (challengeData <- challenge_of url history ;;
   _ <- Get challengeData "pow_required" ;;
   challenge <- Get challengeData "challenge" ;;
   difficulty <- Get challengeData "difficulty" ;;
   solveChallenge StringToInteger challenge difficulty maxIterations_default)%outcome.

(** The response to the [POST] that carries [nonce] and [hash]. *)
Definition submit_reply (url email : string) (history : list Request)
           (nonce hash : string) : outcome Response :=
  net env (history ++ [GET_request url]) (POST_request url email nonce hash).

(** The outcome of the [try] block. *)
Definition attempt_of (url email : string) (history : list Request)
  : outcome SolveResult :=
  (solution <- solution_of url history ;;
   postRes <- submit_reply url email history (fst solution) (snd solution) ;;
   submit_result url postRes)%outcome.

(** The calls of [fetch] an attempt makes. *)
Definition requests_of (url email : string) (history : list Request)
  : list Request :=
  GET_request url ::
  match solution_of url history with
  | Returns (nonce, hash) => [POST_request url email nonce hash]
  | Throws _ => []
  end.

(** The attempt gets as far as the [POST], which carries [nonce] and
    [hash]: the challenge was fetched, its fields could be read and the
    solver returned that pair. *)
Definition reaches_submit (options : SolveOptions) (w : World)
           (nonce hash : string) : Prop :=
  exists challengeData : value,
    snd (fetchChallenge env (url options) w) = Returns challengeData /\
    nullish challengeData = false /\
    solveChallenge StringToInteger (field challengeData "challenge")
                   (field challengeData "difficulty") maxIterations_default =
    Returns (nonce, hash).

End Stages.


(* ------------------------------------------------------------------------- *)
(** ** The mocked runs of the test file *)
(* ------------------------------------------------------------------------- *)

(** A reading of strings as counts for the examples, none of which converts
    a string. *)
Definition example_StringToInteger (s : string) : integer_or_infinity := Finite 0.

Definition example_options : SolveOptions :=
  mkSolveOptions "https://example.com" "a@b.com" None None.

Definition initial_world : World := mkWorld [] [] 0 0 [].

(** A 200 response whose body parses to [data]. *)
Definition json_response (data : value) : Response :=
  mkResponse 200 (Returns data)
    (Returns match JSON_stringify data with
             | Some s => s
             | None => ""
             end).

(** A response with the given status and a body that is plain text. *)
Definition text_response (status : Z) (body : string) : Response :=
  mkResponse status
    (Throws (ErrorObj "SyntaxError" "Unexpected token in JSON at position 0"))
    (Returns body).

(** [vi.fn().mockResolvedValueOnce(first).mockResolvedValueOnce(second)],
    each of the two possibly a rejection. *)
Definition mock_fetch (first second : outcome Response) : Env :=
  mkEnv (fun history _ =>
           match history with
           | [] => first
           | _ :: _ => second
           end)
        (fun n => Z.of_nat n).

Definition challenge_response (token : string) (d : Z) : outcome Response :=
  Returns (json_response (value_of_challenge (mkChallengeResponse true token d))).

(** The server accepts: [{ success: true, position: 7 }]. *)
Definition accepted_body : value :=
  VObj [("success", VBool true); ("position", VNum 7)].

Definition scenario_accepted : Env :=
  mock_fetch (challenge_response "integration" 1)
             (Returns (json_response accepted_body)).

(** The [GET] is rejected with a network error. *)
Definition scenario_network_error : Env :=
  mock_fetch (Throws (ErrorObj "Error" "Network error"))
             (Returns (json_response accepted_body)).

(** The [POST] is answered with HTTP 400 and the text [Bad Request]. *)
Definition scenario_bad_request : Env :=
  mock_fetch (challenge_response "x" 1)
             (Returns (text_response 400 "Bad Request")).

(** The server rejects: [{ success: false, error: "duplicate email" }]. *)
Definition rejected_body : value :=
  VObj [("success", VBool false); ("error", VStr "duplicate email")].

Definition scenario_rejected : Env :=
  mock_fetch (challenge_response "y" 1)
             (Returns (json_response rejected_body)).

(** The [GET] is answered with HTTP 503. *)
Definition scenario_unavailable : Env :=
  mock_fetch (Returns (text_response 503 "Service Unavailable"))
             (Returns (json_response accepted_body)).

(** The [GET] is answered with the body [{}]. *)
Definition scenario_empty_object : Env :=
  mock_fetch (Returns (json_response (VObj [])))
             (Returns (json_response accepted_body)).

(** The challenge says that no proof of work is required. *)
Definition scenario_no_pow_required : Env :=
  mock_fetch (Returns (json_response
                         (value_of_challenge (mkChallengeResponse false "integration" 1))))
             (Returns (json_response accepted_body)).

(** The [POST] is answered with the body [null]. *)
Definition scenario_null_body : Env :=
  mock_fetch (challenge_response "x" 1)
             (Returns (json_response VNull)).

(* ------------------------------------------------------------------------- *)
(** ** The command line: the action of [src/cli.ts] *)
(* ------------------------------------------------------------------------- *)

(** The options the action receives from the argument parser. *)
Record CliOptions : Type := mkCliOptions {
  opt_url : string;
  opt_email : string;
  opt_timeout : Z;
  opt_verbose : bool
}.

(** What the action does with the spinner, which draws on the error
    stream, apart from the standard output. *)
Inductive spinner_event : Type :=
  | Started (text : string)      (* ora({ text }).start() *)
  | TextSet (text : string)      (* spinner.text = text *)
  | Succeeded (text : string)    (* spinner.succeed(text) *)
  | Failed (text : string).      (* spinner.fail(text) *)

(** The world of the command: that of the solver and the spinner. *)
Record Terminal : Type := mkTerminal {
  world : World;
  spinner : list spinner_event
}.

Definition Cli (A : Type) : Type := Terminal -> Terminal * outcome A.

Definition cli_ret {A : Type} (a : A) : Cli A := fun t => (t, Returns a).

Definition cli_bind {A B : Type} (m : Cli A) (k : A -> Cli B) : Cli B :=
  fun t =>
    match m t with
    | (t', Returns a) => k a t'
    | (t', Throws e) => (t', Throws e)
    end.

(** [try { m } catch (err) { handler err }] in the command. *)
Definition cli_try_catch {A : Type} (m : Cli A) (handler : exn -> Cli A) : Cli A :=
  fun t =>
    match m t with
    | (t', Returns a) => (t', Returns a)
    | (t', Throws e) => handler e t'
    end.

(** A computation of the solver's world, run in the command. *)
Definition run {A : Type} (m : Run A) : Cli A :=
  fun t =>
    match m (world t) with
    | (w', o) => (mkTerminal w' (spinner t), o)
    end.

Definition spin (event : spinner_event) : Cli unit :=
  fun t => (mkTerminal (world t) (spinner t ++ [event]), Returns tt).

Declare Scope cli_scope.
Delimit Scope cli_scope with cli.
Notation "x <- m ;; k" := (cli_bind m (fun x => k))
  (at level 61, m at next level, right associativity) : cli_scope.
Notation "m ;; k" := (cli_bind m (fun _ => k))
  (at level 61, right associativity) : cli_scope.

(** A timer fires: it is no longer pending. *)
Definition timer_fires (timer : nat) : Run unit :=
  fun w =>
    (mkWorld (sent w) (stdout w) (clock_reads w) (timers_set w)
             (filter (fun t => negb (Nat.eqb t timer)) (timers_active w)),
     Returns tt).

(** [await new Promise((r) => setTimeout(r, delay))] *)
Definition sleep (delay : Z) : Run unit :=
  (timer <- setTimeout delay ;; timer_fires timer)%run.

(** [console.log(first, second)] with two strings, the first without
    format specifiers: both, a space between them, and a newline. *)
Definition console_log (first second : string) : Run unit :=
  stdout_write (first ++ " " ++ second ++ newline).

(** The value of a field a result may not have. *)
Definition optional (v : option value) : value :=
  match v with
  | Some x => x
  | None => VUndefined
  end.

(** [`${result.error}`] *)
Definition error_text (result : SolveResult) : outcome string :=
  String_of_value (optional (error result)).

(** [result.position != null ? `  (position #${result.position})` : ''] *)
Definition position_text (result : SolveResult) : outcome string :=
  position_suffix "  (position #" (optional (position result)).

Section CLI.

Variable StringToInteger : string -> integer_or_infinity.
Variable env : Env.

(** The callback given to [.action(...)]. Each branch ends in
    [process.exit(code)], which ends the process: the value returned here
    is that code. *)
Definition action (opts : CliOptions) : Cli Z :=
  (spin (Started ("Fetching challenge from " ++ opt_url opts ++ " …")) ;;
   cli_try_catch
     ((* Step 1 — fetch challenge (spinner shows progress) *)
      spin (TextSet ("Fetching challenge from " ++ opt_url opts ++ " …")) ;;
      run (sleep 0) ;;
      (* Step 2 — solve + submit *)
      spin (TextSet "Solving Proof-of-Work puzzle …") ;;
      result <- run (solveAndSubmit StringToInteger env
                       (mkSolveOptions (opt_url opts) (opt_email opts)
                                       (Some (opt_timeout opts)) (Some false))) ;;
      if success result
      then
        suffix <- run (lift (position_text result)) ;;
        spin (Succeeded ("✓ Successfully joined the waitlist" ++ suffix)) ;;
        (if opt_verbose opts
         then run (console_log (newline ++ "[solver] Registration complete for")
                               (opt_email opts))
         else cli_ret tt) ;;
        cli_ret 0%Z
      else
        text <- run (lift (error_text result)) ;;
        spin (Failed ("✗ Registration failed: " ++ text)) ;;
        cli_ret 1%Z)
     (fun err =>
        message <- run (lift (caught_message err)) ;;
        spin (Failed ("✗ Unexpected error: " ++ message)) ;;
        cli_ret 1%Z))%cli.

End CLI.

(** The terminal before the command runs. *)
Definition initial_terminal : Terminal := mkTerminal initial_world [].

(* ------------------------------------------------------------------------- *)
(** ** More notions the properties are stated with *)
(* ------------------------------------------------------------------------- *)

(** A lowercase hexadecimal digit. *)
Definition is_lower_hex (c : ascii) : bool :=
  let n := N_of_ascii c in
  ((48 <=? n) && (n <=? 57) || (97 <=? n) && (n <=? 102))%N.

Fixpoint all_chars (test : ascii -> bool) (s : string) : bool :=
  match s with
  | EmptyString => true
  | String c rest => test c && all_chars test rest
  end.

(** A chunk that [log] writes: a message tagged [[solver]] on a line. *)
Definition is_log_line (chunk : string) : Prop :=
  exists message : string, chunk = "[solver] " ++ message ++ newline.

(** From [w] to [w'] only lines of [log] were written, and none unless
    [verbose]. *)
Definition writes_log (verbose : bool) (w w' : World) : Prop :=
  exists lines : list string,
    stdout w' = (stdout w ++ lines)%list /\
    Forall is_log_line lines /\
    (verbose = false -> lines = []).


(** The server accepts with a position that cannot be converted to a
    string: [{ success: true, position: { toString: 1 } }]. *)
Definition scenario_unprintable_position : Env :=
  mock_fetch (challenge_response "integration" 1)
             (Returns (json_response
                         (VObj [("success", VBool true);
                                ("position", VObj [("toString", VNum 1)])]))).

(** The server rejects with an error that cannot be converted to a string:
    [{ success: false, error: { toString: 1 } }]. *)
Definition scenario_unprintable_error : Env :=
  mock_fetch (challenge_response "y" 1)
             (Returns (json_response
                         (VObj [("success", VBool false);
                                ("error", VObj [("toString", VNum 1)])]))).

(** The [GET] is answered with a 200 whose body is not JSON. *)
Definition scenario_not_json : Env :=
  mock_fetch (Returns (text_response 200 "<html>"))
             (Returns (json_response accepted_body)).


(** The [GET] is answered with the body [null]. *)
Definition scenario_null_challenge : Env :=
  mock_fetch (Returns (json_response VNull))
             (Returns (json_response accepted_body)).

Definition example_cli_options : CliOptions :=
  mkCliOptions "https://example.com" "a@b.com" 5000 true.

(** The options the command gives to [solveAndSubmit]. *)
Definition options_of_cli (opts : CliOptions) : SolveOptions :=
  mkSolveOptions (opt_url opts) (opt_email opts) (Some (opt_timeout opts))
                 (Some false).

(* ------------------------------------------------------------------------- *)
(** ** Strings, digits and digests *)
(* ------------------------------------------------------------------------- *)

Lemma append_assoc_string (a b c : string) : (a ++ b) ++ c = a ++ (b ++ c).
Proof.
  induction a as [|x a IH]; simpl; [reflexivity | now rewrite IH].
Qed.

Lemma append_empty_r (a : string) : a ++ "" = a.
Proof.
  induction a as [|x a IH]; simpl; [reflexivity | now rewrite IH].
Qed.

Lemma length_append (a b : string) :
  String.length (a ++ b) = (String.length a + String.length b)%nat.
Proof.
  induction a as [|c a IH]; simpl; [reflexivity | now rewrite IH].
Qed.

Lemma hex_word_length (w : Z) : String.length (SHA256.hex_word w) = 8%nat.
Proof. reflexivity. Qed.

(** A SHA-256 hex digest has 64 characters, whatever was hashed. *)
Lemma sha256_length (input : string) : String.length (sha256 input) = 64%nat.
Proof.
  unfold sha256, SHA256.hexdigest, SHA256.hex_of_state.
  repeat rewrite length_append. repeat rewrite hex_word_length. reflexivity.
Qed.

Lemma prefix_cons (a b : ascii) (p s : string) :
  String.prefix (String a p) (String b s) =
  if Ascii.eqb a b then String.prefix p s else false.
Proof.
  change (String.prefix (String a p) (String b s))
    with (match ascii_dec a b with
          | left _ => String.prefix p s
          | right _ => false
          end).
  destruct (ascii_dec a b) as [->|Hne].
  - now rewrite Ascii.eqb_refl.
  - destruct (Ascii.eqb_spec a b); [contradiction | reflexivity].
Qed.

(** [startsWith] with a prefix of [n] zeros counts leading zeros. *)
Lemma startsWith_zeros (h : string) (n : nat) :
  startsWith h (repeat_string "0" n) = true <-> (n <= leading_zeros h)%nat.
Proof.
  unfold startsWith. revert h.
  induction n as [|n IH]; intros h.
  - simpl. destruct h; simpl; split; intros; (reflexivity || lia).
  - change (repeat_string "0" (S n)) with (String "0"%char (repeat_string "0" n)).
    destruct h as [|b h].
    + simpl. split; [discriminate | lia].
    + rewrite prefix_cons. cbn [leading_zeros].
      rewrite (Ascii.eqb_sym "0"%char b).
      destruct (Ascii.eqb b "0"%char).
      * rewrite IH. lia.
      * split; [discriminate | lia].
Qed.

Lemma startsWith_zeros_false (h : string) (n : nat) :
  startsWith h (repeat_string "0" n) = false <-> (leading_zeros h < n)%nat.
Proof.
  destruct (startsWith h (repeat_string "0" n)) eqn:E.
  - apply startsWith_zeros in E. split; [discriminate | lia].
  - split; [intros _ | reflexivity].
    destruct (Nat.le_gt_cases n (leading_zeros h)) as [H|H]; [|exact H].
    apply startsWith_zeros in H. congruence.
Qed.

Lemma leading_zeros_le_length (s : string) :
  (leading_zeros s <= String.length s)%nat.
Proof.
  induction s as [|c s IH]; simpl; [lia|].
  destruct (Ascii.eqb c "0"); lia.
Qed.

(** [String(n)] tells integers apart. *)
Lemma String_of_number_inj (n m : Z) :
  String_of_number n = String_of_number m -> n = m.
Proof.
  unfold String_of_number. intros H.
  apply DecimalZ.to_int_inj.
  assert (Hnil : forall z, Z.to_int z <> Decimal.Pos Decimal.Nil /\
                           Z.to_int z <> Decimal.Neg Decimal.Nil).
  { intros [|q|q]; simpl; split; try discriminate;
      intros [= E]; now apply (DecimalPos.Unsigned.to_uint_nonnil q). }
  assert (E : NilZero.int_of_string (NilZero.string_of_int (Z.to_int n)) =
              NilZero.int_of_string (NilZero.string_of_int (Z.to_int m)))
    by now rewrite H.
  rewrite (NilZero.isi (Z.to_int n)) in E by apply (Hnil n).
  rewrite (NilZero.isi (Z.to_int m)) in E by apply (Hnil m).
  now injection E.
Qed.

(* ------------------------------------------------------------------------- *)
(** ** The search loop *)
(* ------------------------------------------------------------------------- *)

Lemma solve_loop_found (c p : string) (fuel : nat) :
  forall (start : Z) (nonce hash : string),
    solve_loop c p fuel start = Some (nonce, hash) ->
    exists k : nat,
      (k < fuel)%nat /\
      nonce = String_of_number (start + Z.of_nat k) /\
      hash = sha256 (c ++ nonce) /\
      startsWith hash p = true /\
      forall j : nat, (j < k)%nat ->
        startsWith (sha256 (c ++ String_of_number (start + Z.of_nat j))) p = false.
Proof.
  induction fuel as [|fuel IH]; intros start nonce hash H; [discriminate|].
  cbn [solve_loop] in H.
  destruct (startsWith (sha256 (c ++ String_of_number start)) p) eqn:E.
  - injection H as <- <-. exists 0%nat.
    rewrite Z.add_0_r. repeat split; try lia; try exact E.
  - apply IH in H. destruct H as (k & Hk & -> & -> & Hp & Hlow).
    exists (S k). replace (start + Z.of_nat (S k)) with (start + 1 + Z.of_nat k) by lia.
    repeat split; try lia; try exact Hp.
    intros [|j] Hj.
    + now rewrite Z.add_0_r.
    + replace (start + Z.of_nat (S j)) with (start + 1 + Z.of_nat j) by lia.
      apply Hlow. lia.
Qed.

Lemma solve_loop_exhausted (c p : string) (fuel : nat) :
  forall start : Z,
    solve_loop c p fuel start = None <->
    forall j : nat, (j < fuel)%nat ->
      startsWith (sha256 (c ++ String_of_number (start + Z.of_nat j))) p = false.
Proof.
  induction fuel as [|fuel IH]; intros start.
  - split; [intros _ j Hj; lia | reflexivity].
  - cbn [solve_loop].
    destruct (startsWith (sha256 (c ++ String_of_number start)) p) eqn:E.
    + split; [discriminate|]. intros H.
      specialize (H 0%nat). rewrite Z.add_0_r in H.
      rewrite H in E by lia. discriminate.
    + rewrite IH. split; intros H j Hj.
      * destruct j as [|j]; [now rewrite Z.add_0_r|].
        replace (start + Z.of_nat (S j)) with (start + 1 + Z.of_nat j) by lia.
        apply H. lia.
      * replace (start + 1 + Z.of_nat j) with (start + Z.of_nat (S j)) by lia.
        apply H. lia.
Qed.

Section SolverFacts.

Variable StringToInteger : string -> integer_or_infinity.

(** [converts] on an array, item by item. *)
Lemma converts_array (items : list value) :
  converts (VArr items) = forallb converts items.
Proof.
  cbn [converts]. induction items as [|x rest IH]; [reflexivity|].
  cbn [forallb]. now rewrite <- IH.
Qed.

(** [String(v)] throws nothing but the [TypeError] of the conversion. *)
Lemma String_of_value_throws (v : value) (e : exn) :
  String_of_value v = Throws e -> e = cannot_convert /\ converts v = false.
Proof.
  unfold String_of_value. destruct (converts v); [discriminate|].
  intros [= <-]. now split.
Qed.

(** ['0'.repeat(d)] for an integer [d]. *)
Lemma String_repeat_zeros (d : Z) :
  String_repeat StringToInteger "0" (VNum d) =
  if (d <? 0)%Z
  then Throws (ErrorObj "RangeError" ("Invalid count value: " ++ String_of_number d))
  else if (max_string_length <? d)%Z
       then Throws (ErrorObj "RangeError" "Invalid string length")
       else Returns (repeat_string "0" (Z.to_nat d)).
Proof.
  unfold String_repeat. cbn [ToIntegerOrInfinity obind String.length ToString].
  now rewrite Z.mul_1_r.
Qed.

(** A difficulty that cannot be converted stops [solveChallenge] at
    [repeat], with the exception of the conversion. *)
Lemma solveChallenge_unconvertible (challenge difficulty : value)
      (maxIterations : Z) (e : exn) :
  String_of_value difficulty = Throws e ->
  solveChallenge StringToInteger challenge difficulty maxIterations = Throws e.
Proof.
  intros H. unfold solveChallenge, String_repeat.
  assert (E : ToIntegerOrInfinity StringToInteger difficulty = Throws e).
  { destruct difficulty; try (cbn in H; discriminate);
      cbn [ToIntegerOrInfinity]; now rewrite H. }
  now rewrite E.
Qed.

(** Everything [solveChallenge] throws is an [Error] instance. *)
Lemma solveChallenge_throws_error (challenge difficulty : value)
      (maxIterations : Z) (e : exn) :
  solveChallenge StringToInteger challenge difficulty maxIterations = Throws e ->
  exists name message : string, e = ErrorObj name message.
Proof.
  assert (Hconv : forall (v : value) (e' : exn),
             String_of_value v = Throws e' ->
             exists name message : string, e' = ErrorObj name message).
  { intros v e' H. apply String_of_value_throws in H. destruct H as [-> _].
    now eexists _, _. }
  unfold solveChallenge, String_repeat.
  destruct (ToIntegerOrInfinity StringToInteger difficulty) as [[n| |]|e0] eqn:E;
    cbn [obind].
  - destruct (n <? 0)%Z; [intros [= <-]; now eexists _, _|].
    destruct (max_string_length <? _)%Z; [intros [= <-]; now eexists _, _|].
    cbn [obind].
    destruct (0 <? maxIterations)%Z.
    + destruct (String_of_value challenge) as [token|e1] eqn:Ec; cbn [obind].
      * destruct (solve_loop _ _ _ _); [discriminate|].
        destruct (String_of_value difficulty) as [text|e2] eqn:Ed; cbn [obind].
        -- intros [= <-]. now eexists _, _.
        -- intros [= <-]. eapply Hconv, Ed.
      * intros [= <-]. eapply Hconv, Ec.
    + cbn [obind].
      destruct (String_of_value difficulty) as [text|e2] eqn:Ed; cbn [obind].
      * intros [= <-]. now eexists _, _.
      * intros [= <-]. eapply Hconv, Ed.
  - intros [= <-]. now eexists _, _.
  - intros [= <-]. now eexists _, _.
  - intros [= <-].
    destruct difficulty; cbn [ToIntegerOrInfinity] in E; try discriminate;
      match type of E with
      | context [String_of_value ?v] =>
          destruct (String_of_value v) eqn:Ev; cbn [obind] in E;
          [discriminate | injection E as <-; eapply Hconv, Ev]
      end.
Qed.

(** With a string and an integer that [repeat] accepts, the conversions do
    nothing and the call is the loop. *)
Lemma solveChallenge_typed (token : string) (d maxIterations : Z) :
  0 <= d <= max_string_length ->
  solveChallenge StringToInteger (VStr token) (VNum d) maxIterations =
  match solve_loop token (repeat_string "0" (Z.to_nat d))
                   (Z.to_nat maxIterations) 0 with
  | Some solution => Returns solution
  | None =>
      Throws (ErrorObj "Error" (exhausted_message maxIterations (String_of_number d)))
  end.
Proof.
  intros Hd. unfold solveChallenge. rewrite String_repeat_zeros.
  destruct (Z.ltb_spec d 0) as [Hneg|_]; [lia|].
  destruct (Z.ltb_spec max_string_length d) as [Hlong|_]; [lia|].
  cbn [obind].
  destruct (Z.ltb_spec 0 maxIterations) as [Hpos|Hnone].
  - cbn [String_of_value converts obind ToString].
    now destruct (solve_loop _ _ _ _).
  - replace (Z.to_nat maxIterations) with 0%nat by lia. reflexivity.
Qed.

(** A negative difficulty never reaches the loop. *)
Lemma solveChallenge_negative (challenge : value) (d maxIterations : Z) :
  d < 0 ->
  solveChallenge StringToInteger challenge (VNum d) maxIterations =
  Throws (ErrorObj "RangeError" ("Invalid count value: " ++ String_of_number d)).
Proof.
  intros Hd. unfold solveChallenge. rewrite String_repeat_zeros.
  destruct (Z.ltb_spec d 0) as [_|Hpos]; [reflexivity | lia].
Qed.

(** Neither does one that asks for a prefix longer than a string can be. *)
Lemma solveChallenge_too_long (challenge : value) (d maxIterations : Z) :
  max_string_length < d ->
  solveChallenge StringToInteger challenge (VNum d) maxIterations =
  Throws (ErrorObj "RangeError" "Invalid string length").
Proof.
  intros Hd. unfold solveChallenge. rewrite String_repeat_zeros.
  assert (0 < max_string_length) by (unfold max_string_length; lia).
  destruct (Z.ltb_spec d 0) as [Hneg|_]; [lia|].
  destruct (Z.ltb_spec max_string_length d) as [_|Hshort]; [reflexivity | lia].
Qed.

(** What a returned pair is: the lowest nonce below the bound whose
    digest meets the difficulty, and that digest. *)
Lemma solveChallenge_returns (token : string) (d maxIterations : Z)
      (nonce hash : string) :
  solveChallenge StringToInteger (VStr token) (VNum d) maxIterations =
  Returns (nonce, hash) ->
  exists n : Z,
    0 <= n < maxIterations /\
    nonce = String_of_number n /\
    hash = sha256 (token ++ nonce) /\
    meets token d n /\
    forall m : Z, 0 <= m < n -> ~ meets token d m.
Proof.
  intros H.
  destruct (Z.lt_ge_cases d 0) as [Hneg|Hd].
  { rewrite solveChallenge_negative in H by exact Hneg. discriminate. }
  destruct (Z.lt_ge_cases max_string_length d) as [Hlong|Hshort].
  { rewrite solveChallenge_too_long in H by exact Hlong. discriminate. }
  rewrite solveChallenge_typed in H by lia.
  destruct (solve_loop token (repeat_string "0" (Z.to_nat d))
                       (Z.to_nat maxIterations) 0) as [[n' h']|] eqn:E;
    [|discriminate].
  injection H as -> ->.
  apply solve_loop_found in E.
  destruct E as (k & Hk & Hn & Hh & Hp & Hlow).
  exists (Z.of_nat k). rewrite Z.add_0_l in Hn.
  split; [lia|]. split; [exact Hn|]. split; [exact Hh|]. split.
  - unfold meets. rewrite <- Hn, <- Hh.
    apply startsWith_zeros in Hp. lia.
  - intros m Hm Hmeets. unfold meets in Hmeets.
    specialize (Hlow (Z.to_nat m)).
    rewrite Z.add_0_l, Z2Nat.id in Hlow by lia.
    apply startsWith_zeros_false in Hlow; lia.
Qed.

(** When no nonce below the bound meets the difficulty, the call throws
    the exhaustion error. *)
Lemma solveChallenge_exhausted (token : string) (d maxIterations : Z) :
  0 <= d <= max_string_length ->
  (forall n : Z, 0 <= n < maxIterations -> ~ meets token d n) ->
  solveChallenge StringToInteger (VStr token) (VNum d) maxIterations =
  Throws (ErrorObj "Error" (exhausted_message maxIterations (String_of_number d))).
Proof.
  intros Hd Hnone. rewrite solveChallenge_typed by exact Hd.
  assert (E : solve_loop token (repeat_string "0" (Z.to_nat d))
                         (Z.to_nat maxIterations) 0 = None).
  { apply solve_loop_exhausted. intros j Hj.
    apply startsWith_zeros_false. rewrite Z.add_0_l.
    specialize (Hnone (Z.of_nat j)). unfold meets in Hnone. lia. }
  now rewrite E.
Qed.

(** No digest meets a difficulty above its own length. *)
Lemma meets_at_most_64 (token : string) (d n : Z) : meets token d n -> d <= 64.
Proof.
  unfold meets. intros H.
  pose proof (leading_zeros_le_length (sha256 (token ++ String_of_number n))) as L.
  rewrite sha256_length in L. lia.
Qed.

(** C1. For a difficulty between 0 and 4 and any token, a pair returned by
    [solveChallenge] has a hash with at least [d] leading zeros, the hash
    is the SHA-256 hex digest of the token followed by the decimal nonce,
    and hashing [token + nonce] again gives the returned hash. *)
Theorem C1_solution_is_valid (token : string) (d maxIterations : Z)
        (nonce hash : string) :
  0 <= d <= 4 ->
  solveChallenge StringToInteger (VStr token) (VNum d) maxIterations =
  Returns (nonce, hash) ->
  d <= Z.of_nat (leading_zeros hash) /\
  (exists n : Z,
      0 <= n /\ nonce = String_of_number n /\
      hash = sha256 (token ++ String_of_number n)) /\
  sha256 (token ++ nonce) = hash.
Proof.
  intros _ H. apply solveChallenge_returns in H.
  destruct H as (n & Hn & -> & -> & Hmeets & _).
  split; [exact Hmeets|]. split; [|reflexivity].
  exists n. repeat split. lia.
Qed.

(** C3, as the code has it. For a token, an integer difficulty and a bound
    that is a safe integer: when no nonce below the bound gives a digest
    with the required zeros, in particular when the bound is at most the
    least such nonce, [solveChallenge] throws the exhaustion error provided
    the difficulty is between 0 and the longest string [repeat] can build;
    a negative difficulty and a longer one make it throw the [RangeError]
    of [repeat] instead, before any nonce is tried; and a pair it returns
    never has a hash without the required zeros. *)
Theorem C3_exhaustion (token : string) (d maxIterations : Z) :
  safe_integer maxIterations ->
  (0 <= d <= max_string_length ->
   (forall n : Z, 0 <= n < maxIterations -> ~ meets token d n) ->
   solveChallenge StringToInteger (VStr token) (VNum d) maxIterations =
   Throws (ErrorObj "Error"
             ("solveChallenge: no solution found within " ++
              String_of_number maxIterations ++ " iterations (difficulty " ++
              String_of_number d ++ ")"))) /\
  (0 <= d <= max_string_length ->
   forall least : Z,
     0 <= least -> meets token d least ->
     (forall k : Z, 0 <= k < least -> ~ meets token d k) ->
     maxIterations <= least ->
     solveChallenge StringToInteger (VStr token) (VNum d) maxIterations =
     Throws (ErrorObj "Error"
               ("solveChallenge: no solution found within " ++
                String_of_number maxIterations ++ " iterations (difficulty " ++
                String_of_number d ++ ")"))) /\
  (d < 0 ->
   exists message : string,
     solveChallenge StringToInteger (VStr token) (VNum d) maxIterations =
     Throws (ErrorObj "RangeError" message)) /\
  (max_string_length < d ->
   solveChallenge StringToInteger (VStr token) (VNum d) maxIterations =
   Throws (ErrorObj "RangeError" "Invalid string length")) /\
  (forall nonce hash : string,
      solveChallenge StringToInteger (VStr token) (VNum d) maxIterations =
      Returns (nonce, hash) ->
      d <= Z.of_nat (leading_zeros hash)).
Proof.
  intros _. split; [|split; [|split; [|split]]].
  - intros Hd Hnone. now apply solveChallenge_exhausted.
  - intros Hd least _ _ Hbelow Hbound.
    apply solveChallenge_exhausted; [exact Hd|].
    intros n Hn. apply Hbelow. lia.
  - intros Hd. eexists. now apply solveChallenge_negative.
  - apply solveChallenge_too_long.
  - intros nonce hash H. apply solveChallenge_returns in H.
    destruct H as (n & _ & -> & -> & Hmeets & _). exact Hmeets.
Qed.

(** C5. The nonce [solveChallenge] returns is the lowest one that
    satisfies the difficulty: it is the decimal form of some [n] below the
    bound whose digest has the required zeros, and no [m] with
    [0 <= m < n] has such a digest. *)
Theorem C5_lowest_nonce (token : string) (d maxIterations : Z)
        (nonce hash : string) :
  solveChallenge StringToInteger (VStr token) (VNum d) maxIterations =
  Returns (nonce, hash) ->
  exists n : Z,
    nonce = String_of_number n /\
    (forall n' : Z, nonce = String_of_number n' -> n' = n) /\
    0 <= n < maxIterations /\
    meets token d n /\
    forall m : Z, 0 <= m < n -> ~ meets token d m.
Proof.
  intros H. apply solveChallenge_returns in H.
  destruct H as (n & Hn & Hnonce & _ & Hmeets & Hlow).
  exists n. split; [exact Hnonce|]. split.
  - intros n' Hn'. apply String_of_number_inj. congruence.
  - repeat split; try assumption; lia.
Qed.

(** C9, as the code has it. With a difficulty above 64, [solveChallenge]
    returns no solution, for every token and bound: a digest has 64
    characters. What it throws is the exhaustion error as long as [repeat]
    can build the prefix (and the bound is a safe integer); for a longer
    difficulty it is the [RangeError] of [repeat]. *)
Theorem C9_difficulty_above_64 (token : string) (d maxIterations : Z) :
  64 < d ->
  (forall nonce hash : string,
      solveChallenge StringToInteger (VStr token) (VNum d) maxIterations <>
      Returns (nonce, hash)) /\
  (d <= max_string_length ->
   safe_integer maxIterations ->
   solveChallenge StringToInteger (VStr token) (VNum d) maxIterations =
   Throws (ErrorObj "Error"
             ("solveChallenge: no solution found within " ++
              String_of_number maxIterations ++ " iterations (difficulty " ++
              String_of_number d ++ ")"))) /\
  (max_string_length < d ->
   solveChallenge StringToInteger (VStr token) (VNum d) maxIterations =
   Throws (ErrorObj "RangeError" "Invalid string length")).
Proof.
  intros Hd. split; [|split].
  - intros nonce hash H. apply solveChallenge_returns in H.
    destruct H as (n & _ & _ & _ & Hmeets & _).
    apply meets_at_most_64 in Hmeets. lia.
  - intros Hshort _. apply solveChallenge_exhausted; [lia|].
    intros n _ Hmeets. apply meets_at_most_64 in Hmeets. lia.
  - apply solveChallenge_too_long.
Qed.

End SolverFacts.

Lemma Get_field (v : value) (key : string) :
  nullish v = false -> Get v key = Returns (field v key).
Proof. destruct v; (discriminate || reflexivity). Qed.


Lemma Get_throws (v : value) (key : string) :
  nullish v = true ->
  Get v key =
  Throws (ErrorObj "TypeError"
            ("Cannot read properties of " ++ ToString v ++
             " (reading '" ++ key ++ "')")).
Proof. destruct v; (discriminate || reflexivity). Qed.

(* ------------------------------------------------------------------------- *)
(** ** Running a computation: postconditions on the world and the outcome *)
(* ------------------------------------------------------------------------- *)

Lemma extends_trans (w w' w'' : World) (r r' : list Request) :
  extends w w' r -> extends w' w'' r' -> extends w w'' (r ++ r').
Proof.
  unfold extends. intros (E1 & E2 & E3) (F1 & F2 & F3).
  rewrite F1, F2, F3, E1, E2, E3, app_assoc. auto.
Qed.

Lemma extends_silent (w w' w'' : World) (r : list Request) :
  extends w w' r -> extends w' w'' [] -> extends w w'' r.
Proof.
  intros H1 H2. rewrite <- (app_nil_r r). eapply extends_trans; eassumption.
Qed.

Lemma wp_bind {A B : Type} (m : Run A) (k : A -> Run B) (w : World)
      (Q : World -> outcome B -> Prop) :
  wp m w (fun w' o =>
            match o with
            | Returns a => wp (k a) w' Q
            | Throws e => Q w' (Throws e)
            end) ->
  wp (bind m k) w Q.
Proof. unfold wp, bind. destruct (m w) as [w' [a|e]]; auto. Qed.

Lemma wp_ret {A : Type} (a : A) (w : World) (Q : World -> outcome A -> Prop) :
  Q w (Returns a) -> wp (ret a) w Q.
Proof. auto. Qed.

Lemma wp_throw {A : Type} (e : exn) (w : World) (Q : World -> outcome A -> Prop) :
  Q w (Throws e) -> wp (throw e) w Q.
Proof. auto. Qed.

Lemma wp_lift {A : Type} (o : outcome A) (w : World)
      (Q : World -> outcome A -> Prop) :
  Q w o -> wp (lift o) w Q.
Proof. auto. Qed.

Lemma wp_log (verbose : bool) (message : string) (w : World)
      (Q : World -> outcome unit -> Prop) :
  (forall w', extends w w' [] -> Q w' (Returns tt)) ->
  wp (log verbose message) w Q.
Proof.
  intros H. unfold wp. destruct verbose; cbn; apply H;
    unfold extends; cbn; now rewrite app_nil_r.
Qed.

Lemma wp_Date_now (env : Env) (w : World) (Q : World -> outcome Z -> Prop) :
  (forall w' now, extends w w' [] -> Q w' (Returns now)) ->
  wp (Date_now env) w Q.
Proof.
  intros H. unfold wp. cbn. apply H. unfold extends; cbn. now rewrite app_nil_r.
Qed.

Lemma wp_fetch (env : Env) (req : Request) (w : World)
      (Q : World -> outcome Response -> Prop) :
  (forall w', extends w w' [req] -> Q w' (net env (sent w) req)) ->
  wp (fetch env req) w Q.
Proof. intros H. unfold wp. cbn. apply H. unfold extends; cbn. auto. Qed.

Lemma wp_try_catch {A : Type} (m : Run A) (handler : exn -> Run A) (w : World)
      (Q : World -> outcome A -> Prop) :
  wp m w (fun w' o =>
            match o with
            | Returns a => Q w' (Returns a)
            | Throws e => wp (handler e) w' Q
            end) ->
  wp (try_catch m handler) w Q.
Proof. unfold wp, try_catch. destruct (m w) as [w' [a|e]]; auto. Qed.

Lemma wp_try_finally {A : Type} (m : Run A) (cleanup : Run unit) (w : World)
      (Q : World -> outcome A -> Prop) :
  wp m w (fun w' o =>
            wp cleanup w' (fun w'' c =>
                             match c with
                             | Returns _ => Q w'' o
                             | Throws e => Q w'' (Throws e)
                             end)) ->
  wp (try_finally m cleanup) w Q.
Proof.
  unfold wp, try_finally. destruct (m w) as [w' o]. cbn.
  destruct (cleanup w') as [w'' [u|e]]; auto.
Qed.

Lemma wp_consequence {A : Type} (m : Run A) (w : World)
      (Q Q' : World -> outcome A -> Prop) :
  wp m w Q -> (forall w' o, Q w' o -> Q' w' o) -> wp m w Q'.
Proof. unfold wp. auto. Qed.

(** One step through the computation of the goal. *)
Ltac wp_step :=
  cbv beta;
  lazymatch goal with
  | |- wp (bind _ _) _ _ => apply wp_bind
  | |- wp (ret _) _ _ => apply wp_ret
  | |- wp (throw _) _ _ => apply wp_throw
  | |- wp (lift _) _ _ => apply wp_lift
  | |- wp (log _ _) _ _ => apply wp_log; intros ? ?
  | |- wp (Date_now _) _ _ => apply wp_Date_now; intros ? ? ?
  | |- wp (fetch _ _) _ _ => apply wp_fetch; intros ? ?
  | |- wp (try_catch _ _) _ _ => apply wp_try_catch
  end.

(** Keep one fact per world, how it extends the first one, and state the
    calls of the goal from the first world. *)
Ltac chain_worlds :=
  repeat match goal with
         | H1 : extends ?w ?w1 ?r, H2 : extends ?w1 ?w2 [] |- _ =>
             pose proof (extends_silent w w1 w2 r H1 H2); clear H2
         | H1 : extends ?w ?w1 ?r, H2 : extends ?w1 ?w2 ?r' |- _ =>
             pose proof (extends_trans w w1 w2 r r' H1 H2); clear H2
         end;
  repeat match goal with
         | H : extends _ _ ([] ++ _) |- _ => cbn [app] in H
         | H : extends ?w ?w1 ?r |- context [sent ?w1] =>
             rewrite (proj1 H); rewrite ?app_nil_r
         end.

(** Steps through the computation until an outcome has to be inspected. *)
Ltac wp_run := repeat (wp_step; chain_worlds).

(** Steps through the computation, with a case for each outcome, test and
    pair met on the way. *)
Ltac wp_cases :=
  repeat (wp_run; cbv beta; cbn [obind fst snd negb];
          lazymatch goal with
          | |- wp (if ?b then _ else _) _ _ => destruct b eqn:?
          | |- wp (match ?s with pair _ _ => _ end) _ _ => destruct s
          | |- match ?o with Returns _ => _ | Throws _ => _ end =>
              destruct o as [?|?] eqn:?
          end).

(* ------------------------------------------------------------------------- *)
(** ** The orchestrator, stage by stage *)
(* ------------------------------------------------------------------------- *)

Section Orchestrator.

Variable StringToInteger : string -> integer_or_infinity.
Variable env : Env.

Lemma wp_fetchChallenge (url : string) (w : World)
      (Q : World -> outcome value -> Prop) :
  (forall w', extends w w' [GET_request url] ->
              Q w' (challenge_of env url (sent w))) ->
  wp (fetchChallenge env url) w Q.
Proof.
  intros H. unfold fetchChallenge.
  apply wp_bind, wp_fetch. intros w' Hw'.
  specialize (H w' Hw'). revert H. unfold challenge_of.
  destruct (net env (sent w) (GET_request url)) as [res|e]; cbn [obind];
    [|auto].
  destruct (negb (ok res)); intros H.
  - wp_step. exact H.
  - wp_step. wp_step. destruct (json res); [wp_step|]; exact H.
Qed.

Lemma solveAndSubmit_try_spec (url email : string) (verbose : bool) (w : World) :
  wp (solveAndSubmit_try StringToInteger env url email verbose) w
     (fun w' o =>
        o = attempt_of StringToInteger env url email (sent w) /\
        extends w w' (requests_of StringToInteger env url email (sent w))).
Proof.
  unfold solveAndSubmit_try, attempt_of, requests_of, solution_of, submit_reply,
    submit_result, body_text.
  wp_run. apply wp_fetchChallenge. intros w2 H2. chain_worlds.
  destruct (challenge_of env url (sent w)) as [challengeData|e]; cbn [obind];
    [|now split].
  destruct (nullish challengeData) eqn:Hnull.
  { rewrite !(Get_throws challengeData) by exact Hnull.
    wp_run. now split. }
  rewrite !(Get_field challengeData) by exact Hnull. cbn [obind].
  destruct (String_of_value (field challengeData "difficulty")) as [text|e]
    eqn:Hconv.
  2:{ pose proof (solveChallenge_unconvertible StringToInteger
                    (field challengeData "challenge") _ maxIterations_default
                    _ Hconv) as Hsolve.
      wp_cases.
      all: try congruence.
      all: rewrite ?Hsolve; wp_run; cbv beta; cbn [obind];
        split; [congruence | assumption]. }
  wp_cases.
  all: try congruence.
  all: wp_run; cbv beta; cbn [obind]; split; [reflexivity | assumption].
Qed.


(** What [solveAndSubmit] does: its outcome is what the [catch] clause
    makes of the [try] block, the calls are those of the attempt, and the
    timer set at entry is cleared at exit. *)
Lemma solveAndSubmit_run (options : SolveOptions) (w : World) :
  snd (solveAndSubmit StringToInteger env options w) =
    settle (attempt_of StringToInteger env (url options) (email options)
                       (sent w)) /\
  sent (fst (solveAndSubmit StringToInteger env options w)) =
    (sent w ++
     requests_of StringToInteger env (url options) (email options) (sent w))%list /\
  ~ In (timers_set w)
       (timers_active (fst (solveAndSubmit StringToInteger env options w))).
Proof.
  change (wp (solveAndSubmit StringToInteger env options) w
             (fun w' o =>
                o = settle (attempt_of StringToInteger env (url options)
                                       (email options) (sent w)) /\
                sent w' =
                  (sent w ++
                   requests_of StringToInteger env (url options) (email options)
                               (sent w))%list /\
                ~ In (timers_set w) (timers_active w'))).
  unfold solveAndSubmit. apply wp_bind. unfold wp at 1. cbn [setTimeout fst snd].
  apply wp_try_finally, wp_try_catch.
  eapply wp_consequence; [apply solveAndSubmit_try_spec|].
  cbn [sent]. intros w2 o (-> & Hsent & _ & _).
  assert (Hclear : wp (clearTimeout (timers_set w)) w2
                      (fun w3 c =>
                         c = Returns tt /\ sent w3 = sent w2 /\
                         ~ In (timers_set w) (timers_active w3))).
  { unfold wp. cbn. repeat split. intros Hin. apply filter_In in Hin.
    destruct Hin as [_ Hne]. rewrite Nat.eqb_refl in Hne. discriminate. }
  destruct (attempt_of StringToInteger env (url options) (email options) (sent w))
    as [r|e]; cbn [settle].
  - eapply wp_consequence; [exact Hclear|].
    intros w3 c (-> & -> & Htimer). auto.
  - apply wp_bind, wp_lift.
    destruct (caught_message e) as [message|e']; cbn [obind]; [apply wp_ret|];
      (eapply wp_consequence; [exact Hclear|]);
      intros w3 c (-> & -> & Htimer); auto.
Qed.

Lemma fetchChallenge_outcome (url : string) (w : World) :
  snd (fetchChallenge env url w) = challenge_of env url (sent w).
Proof.
  change (wp (fetchChallenge env url) w
             (fun _ o => o = challenge_of env url (sent w))).
  apply wp_fetchChallenge. reflexivity.
Qed.

Lemma solution_of_fetched (url : string) (w : World) (challengeData : value) :
  snd (fetchChallenge env url w) = Returns challengeData ->
  nullish challengeData = false ->
  solution_of StringToInteger env url (sent w) =
  solveChallenge StringToInteger (field challengeData "challenge")
                 (field challengeData "difficulty") maxIterations_default.
Proof.
  intros Hfetch Hnull. unfold solution_of.
  rewrite <- fetchChallenge_outcome, Hfetch. cbn [obind].
  rewrite !(Get_field challengeData) by exact Hnull. reflexivity.
Qed.

Lemma reaches_submit_solution (options : SolveOptions) (w : World)
      (nonce hash : string) :
  reaches_submit StringToInteger env options w nonce hash ->
  solution_of StringToInteger env (url options) (sent w) = Returns (nonce, hash).
Proof.
  intros (cd & Hfetch & Hnull & Hsolve).
  now rewrite (solution_of_fetched _ _ _ Hfetch Hnull).
Qed.

(** The outcome of [solveAndSubmit] once the attempt has reached the
    [POST]. *)
Lemma solveAndSubmit_submitted (options : SolveOptions) (w : World)
      (nonce hash : string) :
  reaches_submit StringToInteger env options w nonce hash ->
  snd (solveAndSubmit StringToInteger env options w) =
  settle (postRes <- submit_reply env (url options) (email options)
                                  (sent w) nonce hash ;;
          submit_result (url options) postRes)%outcome.
Proof.
  intros H. apply reaches_submit_solution in H.
  rewrite (proj1 (solveAndSubmit_run options w)).
  unfold attempt_of. rewrite H. reflexivity.
Qed.

Lemma ok_false_iff (res : Response) :
  ok res = false <-> ~ (200 <= status res <= 299).
Proof.
  unfold ok.
  destruct (Z.leb_spec 200 (status res)) as [Hlo|Hlo],
           (Z.leb_spec (status res) 299) as [Hhi|Hhi];
    cbn; split; intros Hout; try lia; try discriminate; try reflexivity.
Qed.

Lemma is_false_other (v : value) : v <> VBool false -> is_false v = false.
Proof. destruct v as [| |[|]| | | |]; intros H; try reflexivity. now elim H. Qed.

(** The end of the success text can be built exactly when the position
    converts. *)
Lemma position_suffix_converts (opening : string) (position : value) :
  (converts position = true ->
   exists suffix : string, position_suffix opening position = Returns suffix) /\
  (converts position = false ->
   position_suffix opening position = Throws cannot_convert).
Proof.
  unfold position_suffix, String_of_value. split; intros H; rewrite H.
  - destruct (not_nullish position); cbn [obind]; eexists; reflexivity.
  - destruct position; try discriminate; reflexivity.
Qed.

Lemma submit_result_shape (url : string) (postRes : Response) (r : SolveResult) :
  submit_result url postRes = Returns r -> well_shaped r.
Proof.
  unfold submit_result, well_shaped.
  destruct (negb (ok postRes)).
  - intros [= <-]. left. eexists. reflexivity.
  - destruct (json postRes) as [body|e]; cbn [obind]; [|discriminate].
    destruct (Get body "success") as [s|e]; cbn [obind]; [|discriminate].
    destruct (is_false s).
    + destruct (Get body "error") as [err|e]; cbn [obind]; [|discriminate].
      intros [= <-]. left. eexists. reflexivity.
    + destruct (Get body "position") as [pos|e]; cbn [obind]; [|discriminate].
      destruct (position_suffix _ pos); cbn [obind]; [|discriminate].
      intros [= <-]. right. eexists. reflexivity.
Qed.

Lemma settle_shape (o : outcome SolveResult) (r : SolveResult) :
  (forall r', o = Returns r' -> well_shaped r') ->
  settle o = Returns r -> well_shaped r.
Proof.
  intros H. destruct o as [r'|e]; cbn [settle].
  - intros [= <-]. now apply H.
  - destruct (caught_message e); cbn [obind]; [|discriminate].
    intros [= <-]. left. eexists. reflexivity.
Qed.

Lemma attempt_of_shape (url email : string) (history : list Request)
      (r : SolveResult) :
  attempt_of StringToInteger env url email history = Returns r -> well_shaped r.
Proof.
  unfold attempt_of.
  destruct (solution_of StringToInteger env url history) as [solution|e]; cbn [obind]; [|discriminate].
  destruct (submit_reply env url email history (fst solution) (snd solution))
    as [postRes|e]; cbn [obind]; [|discriminate].
  apply submit_result_shape.
Qed.


(** [solveAndSubmit] throws nothing but the [TypeError] of a conversion in
    its [catch] clause. *)
Lemma settle_throws (o : outcome SolveResult) (e : exn) :
  settle o = Throws e ->
  e = cannot_convert /\
  exists v : value, o = Throws (Thrown v) /\ converts v = false.
Proof.
  destruct o as [r|[name message|v]]; cbn [settle caught_message obind];
    try discriminate.
  destruct (String_of_value v) as [s|e'] eqn:E; cbn [obind]; [discriminate|].
  intros [= <-]. apply String_of_value_throws in E. destruct E as [-> Hv].
  split; [reflexivity|]. now exists v.
Qed.


(** C4, as the code has it. For a response with a 2xx status, a body that
    is not well-formed JSON makes [fetchChallenge] fail with the parse
    error of [json()], and a well-formed body is returned as parsed,
    whether or not it has the shape of a challenge. For any other status
    the error of the status is thrown before the body is parsed, whatever
    the body is. *)
Theorem C4_parse_failure_propagates (url : string) (w : World) (res : Response) :
  net env (sent w) (GET_request url) = Returns res ->
  (ok res = true ->
   forall e : exn,
     json res = Throws e -> snd (fetchChallenge env url w) = Throws e) /\
  (ok res = true ->
   forall data : value,
     json res = Returns data -> snd (fetchChallenge env url w) = Returns data) /\
  (ok res = false ->
   snd (fetchChallenge env url w) =
   Throws (ErrorObj "Error"
             ("GET " ++ url ++ " responded with HTTP " ++
              String_of_number (status res)))).
Proof.
  intros Hnet. rewrite fetchChallenge_outcome. unfold challenge_of.
  rewrite Hnet. cbn [obind].
  split; [|split]; intros Hok; rewrite Hok; cbn [negb]; auto.
Qed.

(** C6. A response with a status outside 200-299 makes [fetchChallenge]
    throw an error whose message contains the status code, and makes the
    submit step of [solveAndSubmit] return the object with [success] false,
    no position, and an [error] that is the text [POST], the URL, the
    status code and the body text; when the body text cannot be read the
    failure is returned all the same, with an empty text. *)
Theorem C6_status_in_message (options : SolveOptions) (w : World) :
  (forall (url : string) (res : Response),
      net env (sent w) (GET_request url) = Returns res ->
      ~ (200 <= status res <= 299) ->
      exists message : string,
        snd (fetchChallenge env url w) = Throws (ErrorObj "Error" message) /\
        includes message (String_of_number (status res))) /\
  (forall (nonce hash : string) (postRes : Response),
      reaches_submit StringToInteger env options w nonce hash ->
      submit_reply env (url options) (email options) (sent w) nonce hash =
      Returns postRes ->
      ~ (200 <= status postRes <= 299) ->
      exists message : string,
        snd (solveAndSubmit StringToInteger env options w) =
        Returns (mkSolveResult false None (Some (VStr message))) /\
        message =
        "POST " ++ url options ++ " responded with HTTP " ++
        String_of_number (status postRes) ++ ": " ++ body_text postRes /\
        includes message (String_of_number (status postRes)) /\
        includes message (body_text postRes) /\
        (forall t : string, text postRes = Returns t -> body_text postRes = t) /\
        (forall e : exn, text postRes = Throws e -> body_text postRes = "")).
Proof.
  split.
  - intros u res Hnet Hstatus. apply ok_false_iff in Hstatus.
    rewrite fetchChallenge_outcome. unfold challenge_of.
    rewrite Hnet. cbn [obind]. rewrite Hstatus. cbn [negb].
    eexists. split; [reflexivity|].
    exists ("GET " ++ u ++ " responded with HTTP "), "".
    now rewrite !append_assoc_string, append_empty_r.
  - intros nonce hash postRes Hreach Hreply Hstatus.
    apply ok_false_iff in Hstatus.
    rewrite (solveAndSubmit_submitted _ _ _ _ Hreach), Hreply. cbn [obind].
    unfold submit_result. rewrite Hstatus. cbn [negb settle].
    eexists. split; [reflexivity|]. split; [reflexivity|].
    split; [|split; [|split]].
    + exists ("POST " ++ url options ++ " responded with HTTP "),
             (": " ++ body_text postRes).
      now rewrite !append_assoc_string.
    + exists ("POST " ++ url options ++ " responded with HTTP " ++
              String_of_number (status postRes) ++ ": "), "".
      now rewrite !append_assoc_string, append_empty_r.
    + intros t Ht. unfold body_text. now rewrite Ht.
    + intros e He. unfold body_text. now rewrite He.
Qed.

(** C7, as the code has it. In the submit step, for a parsed body of a
    2xx response other than [null], the outcome is a success unless the
    body carries [success: false], provided the position of the body can
    be converted to a string: without a [success] field, or with any other
    value of it, the result is [{ success: true, position }] with the
    position of the body ([undefined] when it has none). A position that
    cannot be converted makes the success text throw, and the result is
    the failure with the message of that [TypeError]. *)
Theorem C7_success_unless_false (options : SolveOptions) (w : World)
        (nonce hash : string) (postRes : Response) (body : value) :
  reaches_submit StringToInteger env options w nonce hash ->
  submit_reply env (url options) (email options) (sent w) nonce hash =
  Returns postRes ->
  ok postRes = true ->
  json postRes = Returns body ->
  nullish body = false ->
  field body "success" <> VBool false ->
  (converts (field body "position") = true ->
   snd (solveAndSubmit StringToInteger env options w) =
   Returns (mkSolveResult true (Some (field body "position")) None)) /\
  (converts (field body "position") = false ->
   snd (solveAndSubmit StringToInteger env options w) =
   Returns (mkSolveResult false None
              (Some (VStr "Cannot convert object to primitive value")))).
Proof.
  intros Hreach Hreply Hok Hjson Hnull Hsuccess.
  rewrite (solveAndSubmit_submitted _ _ _ _ Hreach), Hreply. cbn [obind].
  unfold submit_result. rewrite Hok, Hjson. cbn [negb obind].
  rewrite !(Get_field body) by exact Hnull. cbn [obind].
  rewrite (is_false_other _ Hsuccess).
  destruct (position_suffix_converts " (position #" (field body "position"))
    as [Hyes Hno].
  split; intros Hconv.
  - destruct (Hyes Hconv) as [suffix ->]. reflexivity.
  - rewrite (Hno Hconv). reflexivity.
Qed.

(** C8. For a fetched challenge, whatever its [pow_required] flag,
    [solveAndSubmit] runs the solver on its token and difficulty: when the
    solver returns a pair, the calls made are the [GET] and a [POST] whose
    body has that nonce and that hash as [nonce] and [solution]; when the
    solver throws, nothing is submitted and the result is the failure. *)
Theorem C8_solver_always_invoked (options : SolveOptions) (w : World)
        (challengeData : value) :
  snd (fetchChallenge env (url options) w) = Returns challengeData ->
  is_ChallengeResponse challengeData = true ->
  (forall nonce hash : string,
      solveChallenge StringToInteger (field challengeData "challenge")
                     (field challengeData "difficulty")
                     maxIterations_default = Returns (nonce, hash) ->
      sent (fst (solveAndSubmit StringToInteger env options w)) =
      (sent w ++
       [GET_request (url options);
        mkRequest "POST" (url options) [("Content-Type", "application/json")]
          (JSON_stringify
             (VObj [("email", VStr (email options)); ("nonce", VStr nonce);
                    ("solution", VStr hash)]))])%list) /\
  (forall e : exn,
      solveChallenge StringToInteger (field challengeData "challenge")
                     (field challengeData "difficulty")
                     maxIterations_default = Throws e ->
      sent (fst (solveAndSubmit StringToInteger env options w)) =
      (sent w ++ [GET_request (url options)])%list /\
      snd (solveAndSubmit StringToInteger env options w) =
      Returns (failure (VStr (error_message e)))).
Proof.
  intros Hfetch Hshape.
  assert (Hnull : nullish challengeData = false)
    by (destruct challengeData; (discriminate || reflexivity)).
  pose proof (solveAndSubmit_run options w) as (Hresult & Hsent & _).
  pose proof (solution_of_fetched _ _ _ Hfetch Hnull) as Hsolution.
  split.
  - intros nonce hash Hsolve. rewrite Hsent. unfold requests_of.
    rewrite Hsolution, Hsolve. reflexivity.
  - intros e Hsolve. split.
    + rewrite Hsent. unfold requests_of. rewrite Hsolution, Hsolve. reflexivity.
    + rewrite Hresult. unfold attempt_of. rewrite Hsolution, Hsolve.
      destruct (solveChallenge_throws_error _ _ _ _ _ Hsolve) as (name & message & ->).
      reflexivity.
Qed.

(** C10. Every value [solveAndSubmit] returns keeps the shape of a result:
    with [success] true it has no [error] field, with [success] false it
    has no [position] field. *)
Theorem C10_result_shape (options : SolveOptions) (w : World) (r : SolveResult) :
  snd (solveAndSubmit StringToInteger env options w) = Returns r ->
  (success r = true -> error r = None) /\
  (success r = false -> position r = None).
Proof.
  intros Hr.
  rewrite (proj1 (solveAndSubmit_run options w)) in Hr.
  pose proof (settle_shape _ r (attempt_of_shape (url options) (email options) (sent w)) Hr)
    as [[err ->]|[pos ->]]; cbn; split; intros; (reflexivity || discriminate).
Qed.

End Orchestrator.

(* ------------------------------------------------------------------------- *)
(** ** The properties on the mocked runs *)
(* ------------------------------------------------------------------------- *)

Example sha256_empty :
  sha256 "" = "e3b0c44298fc1c149afbf4c8996fb92427ae41e4649b934ca495991b7852b855".
Proof. vm_compute. reflexivity. Qed.

Example sha256_abc :
  sha256 "abc" = "ba7816bf8f01cfea414140de5dae2223b00361a396177a9cb410ff61f20015ad".
Proof. vm_compute. reflexivity. Qed.

Example sha256_two_blocks :
  sha256 "abcdbcdecdefdefgefghfghighijhijkijkljklmklmnlmnomnopnopq" =
  "248d6a61d20638b8e5c026930c3e6039a33ce45964ff2167f6ecedd419db06c1".
Proof. vm_compute. reflexivity. Qed.

(** A string with characters outside ASCII is hashed as its UTF-8 bytes. *)
Example sha256_utf8 :
  sha256 "héllo…0" =
  "8924dafabb32c90471a8a5ec1cf9c51aaf9913f47d3bab6658213d38a7add8c2".
Proof. vm_compute. reflexivity. Qed.

(** An array given as challenge is joined with commas by the template
    literal. *)
Example challenge_converted_to_string :
  solveChallenge example_StringToInteger
                 (VArr [VNum 1; VNull; VArr [VStr "a"; VBool true]]) (VNum 0)
                 maxIterations_default =
  Returns ("0", sha256 "1,,a,true0").
Proof. vm_compute. reflexivity. Qed.

(** Difficulty 0 is met by nonce 0, as the test file expects. *)
Example difficulty_zero_first_attempt :
  solveChallenge example_StringToInteger (VStr "anything") (VNum 0)
                 maxIterations_default =
  Returns ("0", "a7813b46afa7c47c23092d116433b008d62c221d2dc23360e553ec9efc83958c").
Proof. vm_compute. reflexivity. Qed.

(** The run of the first integration test. *)
Example scenario_accepted_run :
  snd (solveAndSubmit example_StringToInteger scenario_accepted
                      example_options initial_world) =
  Returns (mkSolveResult true (Some (VNum 7)) None).
Proof. vm_compute. reflexivity. Qed.

(** Without [pow_required] the same solution is computed and submitted. *)
Example scenario_no_pow_required_run :
  solveAndSubmit example_StringToInteger scenario_no_pow_required
                 example_options initial_world =
  solveAndSubmit example_StringToInteger scenario_accepted
                 example_options initial_world.
Proof. vm_compute. reflexivity. Qed.

(** The run of the second integration test. *)
Example scenario_network_error_run :
  snd (solveAndSubmit example_StringToInteger scenario_network_error
                      example_options initial_world) =
  Returns (failure (VStr "Network error")).
Proof. vm_compute. reflexivity. Qed.

Lemma C1_witness :
  1 <= Z.of_nat (leading_zeros
                   "02a13c40ba00dc0fb199d3cbe5b01be59d937775890243fd411bdf001935ffc8") /\
  (exists n : Z,
      0 <= n /\ "28" = String_of_number n /\
      "02a13c40ba00dc0fb199d3cbe5b01be59d937775890243fd411bdf001935ffc8" =
      sha256 ("hello" ++ String_of_number n)) /\
  sha256 ("hello" ++ "28") =
  "02a13c40ba00dc0fb199d3cbe5b01be59d937775890243fd411bdf001935ffc8".
Proof.
  apply (C1_solution_is_valid example_StringToInteger "hello" 1
                              maxIterations_default).
  - lia.
  - vm_compute. reflexivity.
Defined.

Lemma C3_witness :
  solveChallenge example_StringToInteger (VStr "abc") (VNum 1) 3 =
  Throws (ErrorObj "Error"
            "solveChallenge: no solution found within 3 iterations (difficulty 1)").
Proof.
  apply (proj1 (C3_exhaustion example_StringToInteger "abc" 1 3
                  ltac:(unfold safe_integer; lia))).
  - unfold max_string_length. lia.
  - intros n Hn Hmeets.
    assert (Hcases : n = 0 \/ n = 1 \/ n = 2) by lia.
    destruct Hcases as [-> | [-> | ->]]; vm_compute in Hmeets;
      apply Hmeets; reflexivity.
Defined.

(** C3 as the specification states it fails: no nonce meets a difficulty
    of 2^29, and what [solveChallenge] throws is the [RangeError] of
    [repeat], not the exhaustion error; with a negative difficulty and a
    bound of 0 no nonce is tried, and the error is a [RangeError] too. *)
Lemma C3_counterexample :
  (forall n : Z, 0 <= n < 1 -> ~ meets "abc" (2 ^ 29) n) /\
  solveChallenge example_StringToInteger (VStr "abc") (VNum (2 ^ 29)) 1 =
  Throws (ErrorObj "RangeError" "Invalid string length") /\
  (forall n : Z, 0 <= n < 0 -> ~ meets "abc" (-1) n) /\
  solveChallenge example_StringToInteger (VStr "abc") (VNum (-1)) 0 =
  Throws (ErrorObj "RangeError" "Invalid count value: -1").
Proof.
  split; [|split; [|split]].
  - intros n _ H. apply meets_at_most_64 in H. lia.
  - vm_compute. reflexivity.
  - intros n Hn. lia.
  - vm_compute. reflexivity.
Qed.

Lemma C5_witness :
  exists n : Z,
    "6" = String_of_number n /\
    (forall n' : Z, "6" = String_of_number n' -> n' = n) /\
    0 <= n < maxIterations_default /\
    meets "testchallenge" 1 n /\
    forall m : Z, 0 <= m < n -> ~ meets "testchallenge" 1 m.
Proof.
  apply (C5_lowest_nonce example_StringToInteger "testchallenge" 1
                         maxIterations_default "6"
           "0c0507aeb94f906ac3b4af06e0f53ebd97676602eaff21aaa6e47a786aa31d20").
  vm_compute. reflexivity.
Defined.

Lemma C9_witness :
  (forall nonce hash : string,
      solveChallenge example_StringToInteger (VStr "abc") (VNum 65) 5 <>
      Returns (nonce, hash)) /\
  solveChallenge example_StringToInteger (VStr "abc") (VNum 65) 5 =
  Throws (ErrorObj "Error"
            "solveChallenge: no solution found within 5 iterations (difficulty 65)").
Proof.
  pose proof (C9_difficulty_above_64 example_StringToInteger "abc" 65 5
                ltac:(lia)) as (Hnone & Hexhausted & _).
  split; [exact Hnone|].
  apply Hexhausted.
  - unfold max_string_length. lia.
  - unfold safe_integer. lia.
Defined.

(** C9 as the specification states it fails: with a difficulty of 2^30
    [repeat] cannot build the prefix, and what [solveChallenge] throws is
    its [RangeError], not the exhaustion error. *)
Lemma C9_counterexample :
  64 < 2 ^ 30 /\
  solveChallenge example_StringToInteger (VStr "abc") (VNum (2 ^ 30)) 1 =
  Throws (ErrorObj "RangeError" "Invalid string length").
Proof. split; [lia | vm_compute; reflexivity]. Qed.



(** C4 as the specification states it fails: the body [{}] has not the
    shape of a challenge, and [fetchChallenge] returns it. *)
Lemma C4_counterexample :
  is_ChallengeResponse (VObj []) = false /\
  snd (fetchChallenge scenario_empty_object (url example_options) initial_world) =
  Returns (VObj []).
Proof. split; reflexivity. Qed.

Lemma C4_witness :
  snd (fetchChallenge scenario_not_json (url example_options) initial_world) =
  Throws (ErrorObj "SyntaxError" "Unexpected token in JSON at position 0") /\
  snd (fetchChallenge scenario_unavailable (url example_options) initial_world) =
  Throws (ErrorObj "Error" "GET https://example.com responded with HTTP 503").
Proof.
  split.
  - apply (proj1 (C4_parse_failure_propagates scenario_not_json
                    (url example_options) initial_world
                    (text_response 200 "<html>") eq_refl));
      reflexivity.
  - apply (proj2 (proj2 (C4_parse_failure_propagates scenario_unavailable
                           (url example_options) initial_world
                           (text_response 503 "Service Unavailable") eq_refl))).
    reflexivity.
Defined.

Lemma C6_witness :
  (exists message : string,
      snd (fetchChallenge scenario_unavailable (url example_options) initial_world) =
      Throws (ErrorObj "Error" message) /\
      includes message "503") /\
  (exists message : string,
      snd (solveAndSubmit example_StringToInteger scenario_bad_request
                          example_options initial_world) =
      Returns (mkSolveResult false None (Some (VStr message))) /\
      message = "POST https://example.com responded with HTTP 400: Bad Request" /\
      includes message "400" /\
      includes message "Bad Request").
Proof.
  pose proof (C6_status_in_message example_StringToInteger scenario_unavailable
                example_options initial_world) as [Hget _].
  pose proof (C6_status_in_message example_StringToInteger scenario_bad_request
                example_options initial_world) as [_ Hpost].
  split.
  - apply (Hget (url example_options) (text_response 503 "Service Unavailable")).
    + reflexivity.
    + cbn. lia.
  - destruct (Hpost "6"
                "0520220e0f12bb847b57ad4bb3dfe908368a1057a7028b92186e73769fe3cc62"
                (text_response 400 "Bad Request"))
      as (message & Hresult & Hmessage & Hstatus & Htext & _).
    + exists (value_of_challenge (mkChallengeResponse true "x" 1)).
      repeat split; vm_compute; reflexivity.
    + reflexivity.
    + cbn. lia.
    + exists message. repeat split; assumption.
Defined.

(** C7 as the specification states it fails: the body [null] of a 200
    response carries no [success: false], and the outcome is a failure. *)
Lemma C7_counterexample :
  submit_reply scenario_null_body (url example_options) (email example_options)
               (sent initial_world) "6"
               "0520220e0f12bb847b57ad4bb3dfe908368a1057a7028b92186e73769fe3cc62" =
  Returns (json_response VNull) /\
  ok (json_response VNull) = true /\
  json (json_response VNull) = Returns VNull /\
  Get VNull "success" <> Returns (VBool false) /\
  snd (solveAndSubmit example_StringToInteger scenario_null_body
                      example_options initial_world) =
  Returns (mkSolveResult false None
             (Some (VStr "Cannot read properties of null (reading 'success')"))).
Proof.
  split; [reflexivity|]. split; [reflexivity|]. split; [reflexivity|].
  split; [discriminate|]. vm_compute. reflexivity.
Qed.

Lemma C7_witness :
  snd (solveAndSubmit example_StringToInteger scenario_accepted
                      example_options initial_world) =
  Returns (mkSolveResult true (Some (VNum 7)) None).
Proof.
  refine (proj1 (C7_success_unless_false example_StringToInteger scenario_accepted
                   example_options initial_world "3"
                   "0f64164fc150573f0efd001fa9ac594de9d88c33950c485de18edfd9baede98b"
                   (json_response accepted_body) accepted_body
                   _ eq_refl eq_refl eq_refl eq_refl _) eq_refl).
  - exists (value_of_challenge (mkChallengeResponse true "integration" 1)).
    repeat split; vm_compute; reflexivity.
  - discriminate.
Defined.

Lemma C8_witness :
  sent (fst (solveAndSubmit example_StringToInteger scenario_accepted
                            example_options initial_world)) =
  [GET_request "https://example.com";
   mkRequest "POST" "https://example.com" [("Content-Type", "application/json")]
     (JSON_stringify
        (VObj [("email", VStr "a@b.com"); ("nonce", VStr "3");
               ("solution",
                VStr "0f64164fc150573f0efd001fa9ac594de9d88c33950c485de18edfd9baede98b")]))].
Proof.
  apply (proj1 (C8_solver_always_invoked example_StringToInteger scenario_accepted
                  example_options initial_world
                  (value_of_challenge (mkChallengeResponse true "integration" 1))
                  eq_refl eq_refl)).
  vm_compute. reflexivity.
Defined.

Lemma C10_witness :
  (success (failure (VStr "duplicate email")) = true ->
   error (failure (VStr "duplicate email")) = None) /\
  (success (failure (VStr "duplicate email")) = false ->
   position (failure (VStr "duplicate email")) = None).
Proof.
  apply (C10_result_shape example_StringToInteger scenario_rejected
           example_options initial_world).
  vm_compute. reflexivity.
Defined.

(** The run of the third integration test. *)
Example scenario_bad_request_run :
  snd (solveAndSubmit example_StringToInteger scenario_bad_request
                      example_options initial_world) =
  Returns (failure (VStr "POST https://example.com responded with HTTP 400: Bad Request")).
Proof. vm_compute. reflexivity. Qed.

(** With [verbose] the attempt writes its progress, and the result is the
    same. *)
Example scenario_accepted_verbose :
  let run := solveAndSubmit example_StringToInteger scenario_accepted
               (mkSolveOptions "https://example.com" "a@b.com" None (Some true))
               initial_world in
  snd run = Returns (mkSolveResult true (Some (VNum 7)) None) /\
  List.length (stdout (fst run)) = 5%nat /\
  timers_active (fst run) = [].
Proof. vm_compute. repeat split. Qed.

(* ------------------------------------------------------------------------- *)
(** ** More on the solver *)
(* ------------------------------------------------------------------------- *)

Lemma startsWith_empty (s : string) : startsWith s "" = true.
Proof. destruct s; reflexivity. Qed.

Lemma solve_loop_more_fuel (c p : string) (fuel : nat) :
  forall (fuel' : nat) (start : Z) (solution : string * string),
    solve_loop c p fuel start = Some solution ->
    (fuel <= fuel')%nat ->
    solve_loop c p fuel' start = Some solution.
Proof.
  induction fuel as [|fuel IH]; intros fuel' start solution H Hle; [discriminate|].
  destruct fuel' as [|fuel']; [lia|].
  cbn [solve_loop] in *.
  destruct (startsWith (sha256 (c ++ String_of_number start)) p); [exact H|].
  apply IH; [exact H | lia].
Qed.

Lemma hex_digit_lower (n : Z) : is_lower_hex (SHA256.hex_digit n) = true.
Proof.
  unfold SHA256.hex_digit.
  assert (H : (Z.to_nat (Z.land n 15) < 16)%nat).
  { change 15 with (Z.ones 4). rewrite Z.land_ones by lia.
    pose proof (Z.mod_pos_bound n (2 ^ 4) ltac:(lia)). lia. }
  revert H. generalize (Z.to_nat (Z.land n 15)). intros m H.
  do 16 (destruct m as [|m]; [reflexivity|]). lia.
Qed.

Lemma all_chars_append (test : ascii -> bool) (a b : string) :
  all_chars test (a ++ b) = all_chars test a && all_chars test b.
Proof.
  induction a as [|c a IH]; cbn; [reflexivity|].
  now rewrite IH, andb_assoc.
Qed.

Lemma hex_word_lower (w : Z) : all_chars is_lower_hex (SHA256.hex_word w) = true.
Proof.
  unfold SHA256.hex_word. cbn [all_chars]. now rewrite !hex_digit_lower.
Qed.

Section MoreSolverFacts.

Variable StringToInteger : string -> integer_or_infinity.

Lemma sha256_lower_hex (input : string) :
  all_chars is_lower_hex (sha256 input) = true.
Proof.
  unfold sha256, SHA256.hexdigest, SHA256.hex_of_state.
  now rewrite !all_chars_append, !hex_word_lower.
Qed.

Lemma solveChallenge_zero (challenge difficulty : value) (maxIterations : Z) :
  In difficulty [VNum 0; VUndefined; VNull; VBool false] ->
  1 <= maxIterations ->
  solveChallenge StringToInteger challenge difficulty maxIterations =
  (token <- String_of_value challenge ;;
   Returns ("0", sha256 (token ++ "0")))%outcome.
Proof.
  intros Hzero Hmax.
  assert (Hprefix : String_repeat StringToInteger "0" difficulty = Returns "").
  { cbn [In] in Hzero.
    destruct Hzero as [<-|[<-|[<-|[<-|[]]]]]; reflexivity. }
  unfold solveChallenge. rewrite Hprefix. cbn [obind].
  destruct (Z.ltb_spec 0 maxIterations) as [_|Hnone]; [|lia].
  destruct (String_of_value challenge) as [token|e]; cbn [obind]; [|reflexivity].
  destruct (Z.to_nat maxIterations) as [|fuel] eqn:E; [lia|].
  cbn [solve_loop]. now rewrite startsWith_empty.
Qed.

Lemma solveChallenge_finds (token : string) (d maxIterations n : Z) :
  0 <= d -> 0 <= n < maxIterations -> meets token d n ->
  exists nonce hash : string,
    solveChallenge StringToInteger (VStr token) (VNum d) maxIterations =
    Returns (nonce, hash).
Proof.
  intros Hd Hn Hmeets.
  assert (Hshort : d <= max_string_length).
  { apply meets_at_most_64 in Hmeets. unfold max_string_length. lia. }
  rewrite solveChallenge_typed by lia.
  destruct (solve_loop token (repeat_string "0" (Z.to_nat d))
                       (Z.to_nat maxIterations) 0) as [[nonce hash]|] eqn:E.
  - now exists nonce, hash.
  - exfalso. rewrite solve_loop_exhausted in E.
    specialize (E (Z.to_nat n)). rewrite Z.add_0_l, Z2Nat.id in E by lia.
    apply startsWith_zeros_false in E; [|lia].
    unfold meets in Hmeets. lia.
Qed.

(** X1. The digest [sha256] returns is 64 lowercase hexadecimal digits,
    whatever the input. *)
Theorem X1_sha256_is_lowercase_hex (input : string) :
  String.length (sha256 input) = 64%nat /\
  all_chars is_lower_hex (sha256 input) = true.
Proof. split; [apply sha256_length | apply sha256_lower_hex]. Qed.

(** X2. When the difficulty is 0, undefined, null or false,
    [solveChallenge] accepts the first nonce for every token, provided the
    bound allows one attempt; a challenge that cannot be converted to a
    string makes it throw the [TypeError] of the conversion instead. *)
Theorem X2_difficulty_zero_first_nonce (difficulty : value) (maxIterations : Z) :
  In difficulty [VNum 0; VUndefined; VNull; VBool false] ->
  1 <= maxIterations ->
  (forall token : string,
      solveChallenge StringToInteger (VStr token) difficulty maxIterations =
      Returns ("0", sha256 (token ++ "0"))) /\
  (forall challenge : value,
      converts challenge = false ->
      solveChallenge StringToInteger challenge difficulty maxIterations =
      Throws (ErrorObj "TypeError" "Cannot convert object to primitive value")).
Proof.
  intros Hzero Hmax. split.
  - intros token. now rewrite solveChallenge_zero.
  - intros challenge Hconv. rewrite solveChallenge_zero by assumption.
    unfold String_of_value. now rewrite Hconv.
Qed.

(** X3. A negative difficulty makes [solveChallenge] throw the
    [RangeError] of [repeat], whatever the challenge and the bound: no
    nonce is tried, and the error is not the exhaustion error. For a safe
    integer the message is [Invalid count value: ] and its digits. *)
Theorem X3_negative_difficulty_is_range_error (challenge : value)
        (d maxIterations : Z) :
  d < 0 ->
  exists message : string,
    solveChallenge StringToInteger challenge (VNum d) maxIterations =
    Throws (ErrorObj "RangeError" message) /\
    (safe_integer d -> message = "Invalid count value: " ++ String_of_number d).
Proof.
  intros Hd. eexists. split; [now apply solveChallenge_negative|].
  reflexivity.
Qed.

(** X4. A solution [solveChallenge] finds within a bound is the solution it
    finds within every larger bound. *)
Theorem X4_larger_bound_same_solution (challenge difficulty : value)
        (maxIterations maxIterations' : Z) (nonce hash : string) :
  solveChallenge StringToInteger challenge difficulty maxIterations =
  Returns (nonce, hash) ->
  maxIterations <= maxIterations' ->
  solveChallenge StringToInteger challenge difficulty maxIterations' =
  Returns (nonce, hash).
Proof.
  unfold solveChallenge. intros H Hle.
  destruct (String_repeat StringToInteger "0" difficulty) as [prefix|e];
    cbn [obind] in *; [|discriminate].
  destruct (Z.ltb_spec 0 maxIterations) as [Hpos|Hnone].
  - destruct (Z.ltb_spec 0 maxIterations') as [_|Hnone']; [|lia].
    destruct (String_of_value challenge) as [token|e]; cbn [obind] in *;
      [|discriminate].
    destruct (solve_loop token prefix (Z.to_nat maxIterations) 0)
      as [solution|] eqn:E.
    + injection H as ->.
      rewrite (solve_loop_more_fuel _ _ _ (Z.to_nat maxIterations') _ _ E) by lia.
      reflexivity.
    + destruct (String_of_value difficulty); discriminate.
  - cbn [obind] in H. destruct (String_of_value difficulty); discriminate.
Qed.


(** X6. Lowering the difficulty never raises the nonce: when difficulty [d]
    is solved by nonce [n], a difficulty [d'] between 0 and [d] is solved,
    within the same bound, by a nonce that is at most [n]. *)
Theorem X6_lower_difficulty_earlier_nonce (token : string)
        (d d' maxIterations : Z) (nonce hash : string) :
  solveChallenge StringToInteger (VStr token) (VNum d) maxIterations =
  Returns (nonce, hash) ->
  0 <= d' <= d ->
  exists (n n' : Z) (hash' : string),
    nonce = String_of_number n /\
    solveChallenge StringToInteger (VStr token) (VNum d') maxIterations =
    Returns (String_of_number n', hash') /\
    0 <= n' <= n.
Proof.
  intros H Hd'. apply solveChallenge_returns in H.
  destruct H as (n & Hn & Hnonce & _ & Hmeets & _).
  assert (Hmeets' : meets token d' n) by (unfold meets in *; lia).
  destruct (solveChallenge_finds token d' maxIterations n ltac:(lia) Hn Hmeets')
    as (nonce' & hash' & H').
  pose proof (solveChallenge_returns _ _ _ _ _ _ H')
    as (n' & Hn' & -> & _ & _ & Hlow).
  exists n, n', hash'. split; [exact Hnonce|]. split; [exact H'|].
  destruct (Z.le_gt_cases n' n) as [Hle|Hgt]; [lia|].
  elim (Hlow n); [lia | exact Hmeets'].
Qed.

End MoreSolverFacts.

(* ------------------------------------------------------------------------- *)
(** ** What an attempt writes *)
(* ------------------------------------------------------------------------- *)

Lemma writes_log_refl (verbose : bool) (w : World) : writes_log verbose w w.
Proof. exists []. now rewrite app_nil_r. Qed.

Lemma writes_log_same (verbose : bool) (w w' : World) :
  stdout w' = stdout w -> writes_log verbose w w'.
Proof. intros H. exists []. now rewrite app_nil_r. Qed.

Lemma writes_log_trans (verbose : bool) (w w' w'' : World) :
  writes_log verbose w w' -> writes_log verbose w' w'' ->
  writes_log verbose w w''.
Proof.
  intros (l1 & E1 & F1 & S1) (l2 & E2 & F2 & S2).
  exists (l1 ++ l2)%list. repeat split.
  - now rewrite E2, E1, app_assoc.
  - apply Forall_app. now split.
  - intros Hv. now rewrite (S1 Hv), (S2 Hv).
Qed.

Lemma wp_log_writes (verbose : bool) (message : string) (w : World)
      (Q : World -> outcome unit -> Prop) :
  (forall w', writes_log verbose w w' -> Q w' (Returns tt)) ->
  wp (log verbose message) w Q.
Proof.
  intros H. unfold wp. destruct verbose; cbn.
  - apply H. exists ["[solver] " ++ message ++ newline]. repeat split.
    + constructor; [|constructor]. now exists message.
    + discriminate.
  - apply H. apply writes_log_refl.
Qed.

Lemma wp_Date_now_writes (verbose : bool) (env : Env) (w : World)
      (Q : World -> outcome Z -> Prop) :
  (forall w' now, writes_log verbose w w' -> Q w' (Returns now)) ->
  wp (Date_now env) w Q.
Proof. intros H. unfold wp. cbn. apply H. now apply writes_log_same. Qed.

Lemma wp_fetch_writes (verbose : bool) (env : Env) (req : Request) (w : World)
      (Q : World -> outcome Response -> Prop) :
  (forall w' o, writes_log verbose w w' -> Q w' o) ->
  wp (fetch env req) w Q.
Proof. intros H. unfold wp. cbn. apply H. now apply writes_log_same. Qed.

(** One step through the computation of the goal, for what it writes. *)
Ltac writes_step verbose :=
  cbv beta;
  lazymatch goal with
  | |- wp (bind _ _) _ _ => apply wp_bind
  | |- wp (ret _) _ _ => apply wp_ret
  | |- wp (throw _) _ _ => apply wp_throw
  | |- wp (lift _) _ _ => apply wp_lift
  | |- wp (log _ _) _ _ => apply wp_log_writes; intros ? ?
  | |- wp (Date_now _) _ _ => apply (wp_Date_now_writes verbose); intros ? ? ?
  | |- wp (fetch _ _) _ _ => apply (wp_fetch_writes verbose); intros ? ? ?
  | |- wp (try_catch _ _) _ _ => apply wp_try_catch
  | |- wp (if ?b then _ else _) _ _ => destruct b
  | |- wp (match ?s with pair _ _ => _ end) _ _ => destruct s
  | |- match ?o with Returns _ => _ | Throws _ => _ end => destruct o
  end;
  repeat match goal with
         | H1 : writes_log ?v ?w ?w1, H2 : writes_log ?v ?w1 ?w2 |- _ =>
             pose proof (writes_log_trans v w w1 w2 H1 H2); clear H2
         end.

Section Output.

Variable StringToInteger : string -> integer_or_infinity.
Variable env : Env.

Lemma fetchChallenge_world (url : string) (w : World) :
  fst (fetchChallenge env url w) =
  mkWorld (sent w ++ [GET_request url]) (stdout w) (clock_reads w)
          (timers_set w) (timers_active w).
Proof.
  unfold fetchChallenge, bind, fetch, throw, lift, ret.
  destruct (net env (sent w) (GET_request url)) as [res|e]; [|reflexivity].
  destruct (negb (ok res)); [reflexivity|].
  destruct (json res); reflexivity.
Qed.

Lemma wp_fetchChallenge_writes (verbose : bool) (url : string) (w : World)
      (Q : World -> outcome value -> Prop) :
  (forall w' o, writes_log verbose w w' -> Q w' o) ->
  wp (fetchChallenge env url) w Q.
Proof.
  intros H. unfold wp. apply H. apply writes_log_same.
  now rewrite fetchChallenge_world.
Qed.

Lemma solveAndSubmit_try_writes (url email : string) (verbose : bool) (w : World) :
  wp (solveAndSubmit_try StringToInteger env url email verbose) w
     (fun w' _ => writes_log verbose w w').
Proof.
  unfold solveAndSubmit_try.
  writes_step verbose. writes_step verbose. writes_step verbose.
  apply (wp_fetchChallenge_writes verbose). intros w2 o H2.
  repeat writes_step verbose.
  all: assumption.
Qed.

Lemma solveAndSubmit_writes (options : SolveOptions) (w : World) :
  writes_log (match verbose options with Some b => b | None => false end)
             w (fst (solveAndSubmit StringToInteger env options w)).
Proof.
  set (v := match verbose options with Some b => b | None => false end).
  change (wp (solveAndSubmit StringToInteger env options) w
             (fun w' _ => writes_log v w w')).
  unfold solveAndSubmit. apply wp_bind. unfold wp at 1. cbn [setTimeout fst snd].
  apply wp_try_finally, wp_try_catch.
  eapply wp_consequence; [apply solveAndSubmit_try_writes|].
  fold v. intros w2 o (lines & Hout & Hlines & Hsilent).
  assert (Hclear : wp (clearTimeout (timers_set w)) w2
                      (fun w3 c => c = Returns tt /\ writes_log v w w3)).
  { unfold wp. cbn. split; [reflexivity|]. now exists lines. }
  destruct o as [r|e];
    [|apply wp_bind, wp_lift;
      destruct (caught_message e); cbn [obind]; [apply wp_ret|]];
    (eapply wp_consequence; [exact Hclear|]);
    intros w3 c (-> & H3); exact H3.
Qed.

Lemma solveAndSubmit_timers (options : SolveOptions) (w : World) :
  timers_set (fst (solveAndSubmit StringToInteger env options w)) =
  S (timers_set w) /\
  timers_active (fst (solveAndSubmit StringToInteger env options w)) =
  filter (fun t => negb (Nat.eqb t (timers_set w))) (timers_active w).
Proof.
  change (wp (solveAndSubmit StringToInteger env options) w
             (fun w' _ =>
                timers_set w' = S (timers_set w) /\
                timers_active w' =
                filter (fun t => negb (Nat.eqb t (timers_set w))) (timers_active w))).
  unfold solveAndSubmit. apply wp_bind. unfold wp at 1. cbn [setTimeout fst snd].
  apply wp_try_finally, wp_try_catch.
  eapply wp_consequence; [apply solveAndSubmit_try_spec|].
  cbn [timers_set timers_active]. intros w2 o (_ & _ & Hset & Hactive).
  assert (Hclear : wp (clearTimeout (timers_set w)) w2
                      (fun w3 c =>
                         c = Returns tt /\
                         timers_set w3 = S (timers_set w) /\
                         timers_active w3 =
                         filter (fun t => negb (Nat.eqb t (timers_set w)))
                                (timers_active w))).
  { unfold wp. cbn. rewrite Hset, Hactive. cbn. rewrite Nat.eqb_refl. cbn.
    repeat split. }
  destruct o as [r|e];
    [|apply wp_bind, wp_lift;
      destruct (caught_message e); cbn [obind]; [apply wp_ret|]];
    (eapply wp_consequence; [exact Hclear|]);
    intros w3 c (-> & H3); exact H3.
Qed.

End Output.

(* ------------------------------------------------------------------------- *)
(** ** More on the orchestrator *)
(* ------------------------------------------------------------------------- *)

Section MoreOrchestratorFacts.

Variable StringToInteger : string -> integer_or_infinity.
Variable env : Env.

Lemma challenge_of_returns (url : string) (history : list Request) (data : value) :
  challenge_of env url history = Returns data <->
  exists res : Response,
    net env history (GET_request url) = Returns res /\
    ok res = true /\ json res = Returns data.
Proof.
  unfold challenge_of. split.
  - destruct (net env history (GET_request url)) as [res|e]; cbn [obind];
      [|discriminate].
    destruct (ok res) eqn:Hok; cbn [negb]; [|discriminate].
    intros H. now exists res.
  - intros (res & -> & Hok & Hjson). cbn [obind]. now rewrite Hok.
Qed.

Lemma solution_of_reaches_submit (options : SolveOptions) (w : World)
      (nonce hash : string) :
  solution_of StringToInteger env (url options) (sent w) = Returns (nonce, hash) ->
  reaches_submit StringToInteger env options w nonce hash.
Proof.
  unfold solution_of, reaches_submit. rewrite fetchChallenge_outcome.
  destruct (challenge_of env (url options) (sent w)) as [cd|e]; cbn [obind];
    [|discriminate].
  destruct (nullish cd) eqn:Hnull.
  - rewrite (Get_throws cd) by exact Hnull. discriminate.
  - rewrite !(Get_field cd) by exact Hnull. cbn [obind].
    intros H. now exists cd.
Qed.

Lemma attempt_of_same_net (env' : Env) (url email : string)
      (history : list Request) :
  net env' = net env ->
  attempt_of StringToInteger env' url email history =
  attempt_of StringToInteger env url email history /\
  requests_of StringToInteger env' url email history =
  requests_of StringToInteger env url email history.
Proof.
  intros Hnet.
  unfold attempt_of, requests_of, solution_of, submit_reply, challenge_of.
  now rewrite Hnet.
Qed.

Lemma solveAndSubmit_same_sent (options : SolveOptions) (w w' : World) :
  sent w' = sent w ->
  snd (solveAndSubmit StringToInteger env options w') =
  snd (solveAndSubmit StringToInteger env options w) /\
  sent (fst (solveAndSubmit StringToInteger env options w')) =
  sent (fst (solveAndSubmit StringToInteger env options w)).
Proof.
  intros Hsent.
  pose proof (solveAndSubmit_run StringToInteger env options w) as (R1 & S1 & _).
  pose proof (solveAndSubmit_run StringToInteger env options w') as (R2 & S2 & _).
  rewrite R1, R2, S1, S2, Hsent. now split.
Qed.

(** The exceptions of [solveAndSubmit] and of the two texts of the
    command. *)
Lemma solveAndSubmit_throws (options : SolveOptions) (w : World) (e : exn) :
  snd (solveAndSubmit StringToInteger env options w) = Throws e ->
  e = cannot_convert.
Proof.
  rewrite (proj1 (solveAndSubmit_run StringToInteger env options w)).
  intros H. apply settle_throws in H. tauto.
Qed.

Lemma position_suffix_throws (opening : string) (position : value) (e : exn) :
  position_suffix opening position = Throws e -> e = cannot_convert.
Proof.
  unfold position_suffix. destruct (not_nullish position); [|discriminate].
  destruct (String_of_value position) as [text|e'] eqn:E; cbn [obind];
    [discriminate|].
  intros [= <-]. now apply String_of_value_throws in E.
Qed.

(** The position of a success is one that the success text could show. *)
Lemma success_position_converts (options : SolveOptions) (w : World)
      (r : SolveResult) :
  snd (solveAndSubmit StringToInteger env options w) = Returns r ->
  success r = true ->
  converts (optional (position r)) = true.
Proof.
  rewrite (proj1 (solveAndSubmit_run StringToInteger env options w)).
  unfold attempt_of.
  destruct (solution_of StringToInteger env (url options) (sent w))
    as [solution|e]; cbn [obind settle].
  2:{ destruct (caught_message e); cbn [obind]; [|discriminate].
      intros [= <-]. discriminate. }
  destruct (submit_reply env (url options) (email options) (sent w)
                         (fst solution) (snd solution))
    as [postRes|e]; cbn [obind settle].
  2:{ destruct (caught_message e); cbn [obind]; [|discriminate].
      intros [= <-]. discriminate. }
  unfold submit_result.
  destruct (negb (ok postRes)); cbn [settle]; [intros [= <-]; discriminate|].
  destruct (json postRes) as [body|e]; cbn [obind settle].
  2:{ destruct (caught_message e); cbn [obind]; [|discriminate].
      intros [= <-]. discriminate. }
  destruct (Get body "success") as [s|e]; cbn [obind settle].
  2:{ destruct (caught_message e); cbn [obind]; [|discriminate].
      intros [= <-]. discriminate. }
  destruct (is_false s).
  - destruct (Get body "error") as [err|e]; cbn [obind settle].
    + intros [= <-]. discriminate.
    + destruct (caught_message e); cbn [obind]; [|discriminate].
      intros [= <-]. discriminate.
  - destruct (Get body "position") as [pos|e]; cbn [obind settle].
    2:{ destruct (caught_message e); cbn [obind]; [|discriminate].
        intros [= <-]. discriminate. }
    destruct (converts pos) eqn:Hconv.
    + destruct (position_suffix " (position #" pos); cbn [obind settle].
      * intros [= <-] _. exact Hconv.
      * destruct (caught_message e); cbn [obind]; [|discriminate].
        intros [= <-]. discriminate.
    + rewrite (proj2 (position_suffix_converts " (position #" pos) Hconv).
      cbn [obind settle cannot_convert caught_message].
      intros [= <-]. discriminate.
Qed.

(** The command, case by case. *)
Lemma action_run (opts : CliOptions) (t : Terminal) :
  let shown :=
    (spinner t ++
     [Started ("Fetching challenge from " ++ opt_url opts ++ " …");
      TextSet ("Fetching challenge from " ++ opt_url opts ++ " …");
      TextSet "Solving Proof-of-Work puzzle …"])%list in
  let run := solveAndSubmit StringToInteger env (options_of_cli opts)
                            (fst (sleep 0 (world t))) in
  let unexpected :=
    (mkTerminal (fst run)
       (shown ++
        [Failed "✗ Unexpected error: Cannot convert object to primitive value"])%list,
     Returns 1) in
  action StringToInteger env opts t =
  match snd run with
  | Returns r =>
      match (if success r then position_text r else error_text r) with
      | Returns text =>
          if success r
          then (mkTerminal
                  (if opt_verbose opts
                   then fst (console_log
                               (newline ++ "[solver] Registration complete for")
                               (opt_email opts) (fst run))
                   else fst run)
                  (shown ++
                   [Succeeded ("✓ Successfully joined the waitlist" ++ text)])%list,
                Returns 0)
          else (mkTerminal (fst run)
                  (shown ++ [Failed ("✗ Registration failed: " ++ text)])%list,
                Returns 1)
      | Throws _ => unexpected
      end
  | Throws _ => unexpected
  end.
Proof.
  cbv zeta.
  set (options := options_of_cli opts).
  pose proof (solveAndSubmit_throws options (fst (sleep 0 (world t)))) as Hthrows.
  unfold action, cli_bind, cli_try_catch, spin, run, cli_ret.
  cbn [world spinner fst snd].
  change (sleep 0 (world t)) with (fst (sleep 0 (world t)), Returns tt).
  cbn [world spinner fst snd].
  change (mkSolveOptions (opt_url opts) (opt_email opts)
                         (Some (opt_timeout opts)) (Some false)) with options.
  destruct (solveAndSubmit StringToInteger env options (fst (sleep 0 (world t))))
    as [w2 [r|e]]; cbn [fst snd] in *.
  - destruct (success r); cbn [world spinner fst snd lift].
    + destruct (position_text r) as [suffix|e] eqn:E; cbn [world spinner fst snd].
      * destruct (opt_verbose opts); cbn [world spinner fst snd];
          rewrite <- !app_assoc; reflexivity.
      * apply position_suffix_throws in E. subst e.
        cbn. rewrite <- !app_assoc. reflexivity.
    + destruct (error_text r) as [text|e] eqn:E; cbn [world spinner fst snd].
      * rewrite <- !app_assoc. reflexivity.
      * apply String_of_value_throws in E. destruct E as [-> _].
        cbn. rewrite <- !app_assoc. reflexivity.
  - rewrite (Hthrows e eq_refl). cbn. rewrite <- !app_assoc. reflexivity.
Qed.

End MoreOrchestratorFacts.

(* ------------------------------------------------------------------------- *)
(** ** Further properties of the network steps and of the command *)
(* ------------------------------------------------------------------------- *)

Section FurtherProperties.

Variable StringToInteger : string -> integer_or_infinity.
Variable env : Env.

(** X7. Whatever the response, [fetchChallenge] makes exactly one call, the
    [GET] of the URL, and touches nothing else: it writes nothing, reads no
    clock and sets no timer. *)
Theorem X7_fetchChallenge_one_call (url : string) (w : World) :
  let w' := fst (fetchChallenge env url w) in
  sent w' = (sent w ++ [GET_request url])%list /\
  stdout w' = stdout w /\
  clock_reads w' = clock_reads w /\
  timers_set w' = timers_set w /\
  timers_active w' = timers_active w.
Proof. cbv zeta. rewrite fetchChallenge_world. cbn. auto. Qed.

(** X8. [fetchChallenge] returns a value exactly when the call was answered
    with a 2xx response whose body parses, and the value is the parsed
    body; a call that is rejected makes it throw the rejection unchanged. *)
Theorem X8_fetchChallenge_returns_iff (url : string) (w : World) :
  (forall data : value,
      snd (fetchChallenge env url w) = Returns data <->
      exists res : Response,
        net env (sent w) (GET_request url) = Returns res /\
        200 <= status res <= 299 /\ json res = Returns data) /\
  (forall e : exn,
      net env (sent w) (GET_request url) = Throws e ->
      snd (fetchChallenge env url w) = Throws e).
Proof.
  rewrite fetchChallenge_outcome. split.
  - intros data. rewrite challenge_of_returns. split.
    + intros (res & Hnet & Hok & Hjson). exists res.
      split; [exact Hnet|]. split; [|exact Hjson].
      destruct (Z_le_dec 200 (status res)) as [Hlo|Hlo];
        destruct (Z_le_dec (status res) 299) as [Hhi|Hhi]; [lia | | |];
        (assert (Hout : ok res = false) by (apply ok_false_iff; lia));
        rewrite Hout in Hok; discriminate.
    + intros (res & Hnet & Hstatus & Hjson). exists res.
      split; [exact Hnet|]. split; [|exact Hjson].
      destruct (ok res) eqn:Hok; [reflexivity|].
      apply ok_false_iff in Hok. lia.
  - intros e Hnet. unfold challenge_of. now rewrite Hnet.
Qed.

(** X9. All [solveAndSubmit] writes to the standard output is lines that
    start with the tag [[solver] ], after what was there; unless [verbose]
    is given as [true] it writes nothing at all. *)
Theorem X9_output_is_tagged_log (options : SolveOptions) (w : World) :
  exists lines : list string,
    stdout (fst (solveAndSubmit StringToInteger env options w)) =
    (stdout w ++ lines)%list /\
    Forall is_log_line lines /\
    (verbose options <> Some true -> lines = []).
Proof.
  destruct (solveAndSubmit_writes StringToInteger env options w)
    as (lines & Hout & Hlines & Hsilent).
  exists lines. split; [exact Hout|]. split; [exact Hlines|].
  intros Hverbose. apply Hsilent.
  destruct (verbose options) as [[|]|]; [now elim Hverbose | reflexivity..].
Qed.

(** X10. [solveAndSubmit] creates exactly one timer, and whether the
    attempt succeeds or fails that timer is not pending when it returns;
    the timers that were pending before stay as they were. *)
Theorem X10_one_timer_cleared (options : SolveOptions) (w : World) :
  let w' := fst (solveAndSubmit StringToInteger env options w) in
  timers_set w' = S (timers_set w) /\
  ~ In (timers_set w) (timers_active w') /\
  forall timer : nat,
    timer <> timers_set w ->
    (In timer (timers_active w') <-> In timer (timers_active w)).
Proof.
  cbv zeta.
  destruct (solveAndSubmit_timers StringToInteger env options w) as [Hset Hactive].
  rewrite Hset, Hactive. split; [reflexivity|]. split.
  - intros Hin. apply filter_In in Hin. destruct Hin as [_ Hne].
    rewrite Nat.eqb_refl in Hne. discriminate.
  - intros timer Hne. rewrite filter_In. split; [now intros [Hin _]|].
    intros Hin. split; [exact Hin|].
    apply Bool.negb_true_iff, Nat.eqb_neq. exact Hne.
Qed.

(** X11. The result of [solveAndSubmit] and the calls it makes depend on
    the URL, the email and the answers of the network only: not on
    [verbose], not on what the clock shows, not on what was written or
    which timers were set before. *)
Theorem X11_result_independent_of_verbose_and_clock
        (options : SolveOptions) (w : World)
        (verbose' : option bool) (clock' : nat -> Z)
        (out : list string) (reads set : nat) (active : list nat) :
  let env' := mkEnv (net env) clock' in
  let options' := mkSolveOptions (url options) (email options)
                                 (timeout options) verbose' in
  let w' := mkWorld (sent w) out reads set active in
  snd (solveAndSubmit StringToInteger env' options' w') =
  snd (solveAndSubmit StringToInteger env options w) /\
  exists calls : list Request,
    sent (fst (solveAndSubmit StringToInteger env' options' w')) =
    (sent w ++ calls)%list /\
    sent (fst (solveAndSubmit StringToInteger env options w)) =
    (sent w ++ calls)%list.
Proof.
  cbv zeta.
  pose proof (solveAndSubmit_run StringToInteger env options w) as (R1 & S1 & _).
  pose proof (solveAndSubmit_run StringToInteger (mkEnv (net env) clock')
                (mkSolveOptions (url options) (email options)
                                (timeout options) verbose')
                (mkWorld (sent w) out reads set active)) as (R2 & S2 & _).
  cbn [url email sent] in R2, S2.
  destruct (attempt_of_same_net StringToInteger env (mkEnv (net env) clock')
              (url options) (email options) (sent w) eq_refl) as [Ha Hr].
  rewrite Ha in R2. rewrite Hr in S2.
  split; [now rewrite R1, R2|].
  eexists. split; [exact S2 | exact S1].
Qed.

(** X12. The calls of [solveAndSubmit] are the [GET] and then at most one
    [POST]: the [POST] is made exactly when the challenge was fetched, its
    fields could be read and the solver returned a pair, and it carries
    that pair; otherwise the [GET] is the only call. *)
Theorem X12_get_then_at_most_one_post (options : SolveOptions) (w : World) :
  let w' := fst (solveAndSubmit StringToInteger env options w) in
  (exists nonce hash : string,
      reaches_submit StringToInteger env options w nonce hash /\
      sent w' =
      (sent w ++ [GET_request (url options);
                  POST_request (url options) (email options) nonce hash])%list) \/
  ((forall nonce hash : string,
       ~ reaches_submit StringToInteger env options w nonce hash) /\
   sent w' = (sent w ++ [GET_request (url options)])%list).
Proof.
  cbv zeta.
  pose proof (solveAndSubmit_run StringToInteger env options w) as (_ & Hsent & _).
  rewrite Hsent. unfold requests_of.
  destruct (solution_of StringToInteger env (url options) (sent w))
    as [[nonce hash]|e] eqn:E.
  - left. exists nonce, hash. split; [|reflexivity].
    now apply solution_of_reaches_submit.
  - right. split; [|reflexivity].
    intros nonce hash H. apply reaches_submit_solution in H.
    rewrite E in H. discriminate.
Qed.


(** X14. When the difficulty of the fetched body is 0, or the body has
    none, [solveAndSubmit] submits the nonce [0] with the digest of the
    challenge, converted to a string, followed by [0]; it does so even for
    a body without a [challenge], whose text is then [undefined]. A
    challenge that cannot be converted to a string makes it return the
    failure of the [TypeError] and submit nothing. *)
Theorem X14_zero_difficulty_submits_first_nonce
        (options : SolveOptions) (w : World) (challengeData : value) :
  snd (fetchChallenge env (url options) w) = Returns challengeData ->
  nullish challengeData = false ->
  In (field challengeData "difficulty") [VNum 0; VUndefined; VNull; VBool false] ->
  (prints_exactly (field challengeData "challenge") ->
   sent (fst (solveAndSubmit StringToInteger env options w)) =
   (sent w ++
    [GET_request (url options);
     POST_request (url options) (email options) "0"
       (sha256 (ToString (field challengeData "challenge") ++ "0"))])%list) /\
  (converts (field challengeData "challenge") = false ->
   sent (fst (solveAndSubmit StringToInteger env options w)) =
   (sent w ++ [GET_request (url options)])%list /\
   snd (solveAndSubmit StringToInteger env options w) =
   Returns (mkSolveResult false None
              (Some (VStr "Cannot convert object to primitive value")))).
Proof.
  intros Hfetch Hnull Hzero.
  pose proof (solution_of_fetched StringToInteger env _ _ _ Hfetch Hnull) as Hsol.
  rewrite (solveChallenge_zero StringToInteger _ _ _ Hzero) in Hsol
    by (unfold maxIterations_default; lia).
  pose proof (solveAndSubmit_run StringToInteger env options w) as (R & S & _).
  rewrite R, S. unfold attempt_of, requests_of. rewrite Hsol.
  unfold String_of_value. split.
  - intros Hprints.
    assert (Hconv : converts (field challengeData "challenge") = true)
      by (destruct (field challengeData "challenge"); (reflexivity || elim Hprints)).
    rewrite Hconv. reflexivity.
  - intros Hconv. rewrite Hconv. split; reflexivity.
Qed.

(** X15. When the body of the challenge parses to [null], reading its first
    field fails: [solveAndSubmit] returns the failure with the message of
    that [TypeError], and the [GET] is its only call. *)
Theorem X15_null_challenge_is_failure
        (options : SolveOptions) (w : World) (challengeData : value) :
  snd (fetchChallenge env (url options) w) = Returns challengeData ->
  nullish challengeData = true ->
  snd (solveAndSubmit StringToInteger env options w) =
  Returns (failure (VStr ("Cannot read properties of " ++
                          ToString challengeData ++
                          " (reading 'pow_required')"))) /\
  sent (fst (solveAndSubmit StringToInteger env options w)) =
  (sent w ++ [GET_request (url options)])%list.
Proof.
  intros Hfetch Hnull.
  assert (Hsol : solution_of StringToInteger env (url options) (sent w) =
                 Throws (ErrorObj "TypeError"
                           ("Cannot read properties of " ++
                            ToString challengeData ++
                            " (reading 'pow_required')"))).
  { unfold solution_of. rewrite <- fetchChallenge_outcome, Hfetch. cbn [obind].
    now rewrite (Get_throws challengeData) by exact Hnull. }
  pose proof (solveAndSubmit_run StringToInteger env options w) as (R & S & _).
  rewrite R, S. unfold attempt_of, requests_of. rewrite Hsol. split; reflexivity.
Qed.

(** X16. The command always ends with an exit code, never with an escaped
    exception: 0 when [solveAndSubmit] returns a success, 1 when it
    returns a failure or throws. *)
Theorem X16_exit_code_follows_success (opts : CliOptions) (t : Terminal) :
  snd (action StringToInteger env opts t) =
  Returns match snd (solveAndSubmit StringToInteger env (options_of_cli opts)
                                    (fst (sleep 0 (world t)))) with
          | Returns r => if success r then 0 else 1
          | Throws _ => 1
          end.
Proof.
  pose proof (action_run StringToInteger env opts t) as Haction.
  cbv zeta in Haction. rewrite Haction.
  pose proof (success_position_converts StringToInteger env (options_of_cli opts)
                (fst (sleep 0 (world t)))) as Hposition.
  destruct (snd (solveAndSubmit StringToInteger env (options_of_cli opts)
                                (fst (sleep 0 (world t))))) as [r|e];
    [|reflexivity].
  destruct (success r) eqn:Hsuccess.
  - destruct (proj1 (position_suffix_converts "  (position #"
                       (optional (position r)))
                    (Hposition r eq_refl Hsuccess)) as [suffix Hsuffix].
    unfold position_text. rewrite Hsuffix. reflexivity.
  - destruct (error_text r); reflexivity.
Qed.

(** X17. What the command shows on the spinner: it starts it, sets its text
    twice and ends it once. After a success the end is the success text,
    with the position when there is one; after a failure it is
    [Registration failed] with the error of the result, unless that error
    cannot be converted to a string; then, and when [solveAndSubmit]
    throws, it is [Unexpected error] with the message of the
    [TypeError]. *)
Theorem X17_spinner_events (opts : CliOptions) (t : Terminal) :
  exists last : spinner_event,
    spinner (fst (action StringToInteger env opts t)) =
    (spinner t ++
     [Started ("Fetching challenge from " ++ opt_url opts ++ " …");
      TextSet ("Fetching challenge from " ++ opt_url opts ++ " …");
      TextSet "Solving Proof-of-Work puzzle …";
      last])%list /\
    match snd (solveAndSubmit StringToInteger env (options_of_cli opts)
                              (fst (sleep 0 (world t)))) with
    | Returns r =>
        if success r
        then
          exists suffix : string,
            last = Succeeded ("✓ Successfully joined the waitlist" ++ suffix) /\
            (nullish (optional (position r)) = true -> suffix = "") /\
            (forall n : Z,
                position r = Some (VNum n) -> safe_integer n ->
                suffix = "  (position #" ++ String_of_number n ++ ")")
        else
          (forall s : string,
              error r = Some (VStr s) ->
              last = Failed ("✗ Registration failed: " ++ s)) /\
          (converts (optional (error r)) = true ->
           exists text : string,
             last = Failed ("✗ Registration failed: " ++ text)) /\
          (converts (optional (error r)) = false ->
           last =
           Failed "✗ Unexpected error: Cannot convert object to primitive value")
    | Throws _ =>
        last =
        Failed "✗ Unexpected error: Cannot convert object to primitive value"
    end.
Proof.
  pose proof (action_run StringToInteger env opts t) as Haction.
  cbv zeta in Haction. rewrite Haction.
  pose proof (success_position_converts StringToInteger env (options_of_cli opts)
                (fst (sleep 0 (world t)))) as Hposition.
  destruct (snd (solveAndSubmit StringToInteger env (options_of_cli opts)
                                (fst (sleep 0 (world t))))) as [r|e].
  2:{ eexists. cbn [fst spinner]. rewrite <- app_assoc. split; reflexivity. }
  destruct (success r) eqn:Hsuccess.
  - specialize (Hposition r eq_refl Hsuccess).
    unfold position_text, position_suffix, String_of_value.
    rewrite Hposition.
    destruct (optional (position r)) as [| | | | | |] eqn:Hpos;
      cbn [not_nullish obind fst spinner]; rewrite <- app_assoc;
      eexists; (split; [reflexivity|]); eexists; (split; [reflexivity|]);
      (split; [intros Hnull; (reflexivity || discriminate)|]);
      intros k Hk _; rewrite Hk in Hpos; cbn [optional] in Hpos;
      (discriminate || (injection Hpos as <-; reflexivity)).
  - unfold error_text, String_of_value.
    destruct (converts (optional (error r))) eqn:Hconv;
      cbn [fst spinner]; rewrite <- app_assoc; eexists;
      (split; [reflexivity|]); (split; [|split]).
    + intros s Hs. rewrite Hs. reflexivity.
    + intros _. eexists. reflexivity.
    + discriminate.
    + intros s Hs. rewrite Hs in Hconv. discriminate.
    + discriminate.
    + reflexivity.
Qed.

(** X18. The command writes to the standard output only after a success
    with [--verbose], and then one line, [Registration complete for] with
    the email after an empty line; the progress lines of [solveAndSubmit]
    never appear, with or without [--verbose]. *)
Theorem X18_command_output (opts : CliOptions) (t : Terminal) :
  stdout (world (fst (action StringToInteger env opts t))) =
  (stdout (world t) ++
   match snd (solveAndSubmit StringToInteger env (options_of_cli opts)
                             (fst (sleep 0 (world t)))) with
   | Returns r =>
       if success r && opt_verbose opts
       then [(newline ++ "[solver] Registration complete for " ++
              opt_email opts ++ newline)%string]
       else []
   | Throws _ => []
   end)%list.
Proof.
  pose proof (action_run StringToInteger env opts t) as Haction.
  cbv zeta in Haction. rewrite Haction.
  pose proof (success_position_converts StringToInteger env (options_of_cli opts)
                (fst (sleep 0 (world t)))) as Hposition.
  destruct (solveAndSubmit_writes StringToInteger env (options_of_cli opts)
              (fst (sleep 0 (world t)))) as (lines & Hout & _ & Hsilent).
  cbn [options_of_cli verbose] in Hsilent.
  rewrite (Hsilent eq_refl), app_nil_r in Hout.
  change (stdout (fst (sleep 0 (world t)))) with (stdout (world t)) in Hout.
  destruct (snd (solveAndSubmit StringToInteger env (options_of_cli opts)
                                (fst (sleep 0 (world t))))) as [r|e].
  2:{ cbn [fst world]. now rewrite app_nil_r. }
  destruct (success r) eqn:Hsuccess; cbn [andb].
  - destruct (proj1 (position_suffix_converts "  (position #"
                       (optional (position r)))
                    (Hposition r eq_refl Hsuccess)) as [suffix Hsuffix].
    unfold position_text. rewrite Hsuffix. cbn [fst world].
    destruct (opt_verbose opts).
    + unfold console_log, stdout_write. cbn [fst stdout]. rewrite Hout.
      now rewrite !append_assoc_string.
    + now rewrite app_nil_r.
  - destruct (error_text r); cbn [fst world]; now rewrite app_nil_r.
Qed.

(** X19. The command makes the calls of one [solveAndSubmit] with its URL
    and email and no other, and it leaves none of its two timers
    pending. *)
Theorem X19_command_calls_and_timers (opts : CliOptions) (t : Terminal) :
  let final := world (fst (action StringToInteger env opts t)) in
  sent final =
  sent (fst (solveAndSubmit StringToInteger env (options_of_cli opts) (world t))) /\
  timers_set final = S (S (timers_set (world t))) /\
  ~ In (timers_set (world t)) (timers_active final) /\
  ~ In (S (timers_set (world t))) (timers_active final).
Proof.
  cbv zeta.
  pose proof (action_run StringToInteger env opts t) as Haction.
  cbv zeta in Haction.
  set (w2 := fst (solveAndSubmit StringToInteger env (options_of_cli opts)
                                 (fst (sleep 0 (world t))))) in *.
  assert (Hworld : exists w3 : World,
             world (fst (action StringToInteger env opts t)) = w3 /\
             sent w3 = sent w2 /\ timers_set w3 = timers_set w2 /\
             timers_active w3 = timers_active w2).
  { rewrite Haction.
    destruct (snd (solveAndSubmit StringToInteger env (options_of_cli opts)
                                  (fst (sleep 0 (world t))))) as [r|e];
      [|eexists; split; [reflexivity | auto]].
    destruct (success r) eqn:Hsuccess.
    - destruct (position_text r); [|eexists; split; [reflexivity | auto]].
      destruct (opt_verbose opts); eexists; (split; [reflexivity|]);
        cbn; auto.
    - destruct (error_text r); eexists; (split; [reflexivity | auto]). }
  destruct Hworld as (w3 & -> & -> & -> & ->). subst w2.
  destruct (solveAndSubmit_same_sent StringToInteger env (options_of_cli opts)
              (world t) (fst (sleep 0 (world t))) eq_refl) as [_ Hsent].
  destruct (solveAndSubmit_timers StringToInteger env (options_of_cli opts)
              (fst (sleep 0 (world t)))) as [Hset Hactive].
  rewrite Hsent, Hset, Hactive. split; [reflexivity|].
  change (timers_set (fst (sleep 0 (world t)))) with (S (timers_set (world t))).
  split; [reflexivity|].
  change (timers_active (fst (sleep 0 (world t))))
    with (filter (fun k => negb (Nat.eqb k (timers_set (world t))))
                 (timers_set (world t) :: timers_active (world t))).
  split; intros Hin; apply filter_In in Hin; destruct Hin as [Hin Hne].
  - apply filter_In in Hin. destruct Hin as [_ Hne'].
    rewrite Nat.eqb_refl in Hne'. discriminate.
  - rewrite Nat.eqb_refl in Hne. discriminate.
Qed.

End FurtherProperties.

(** The command on the first integration test, with [--verbose]. *)
Example action_accepted_run :
  let run := action example_StringToInteger scenario_accepted
               example_cli_options initial_terminal in
  snd run = Returns 0 /\
  stdout (world (fst run)) =
  [newline ++ "[solver] Registration complete for a@b.com" ++ newline] /\
  List.length (spinner (fst run)) = 4%nat /\
  timers_active (world (fst run)) = [].
Proof. vm_compute. repeat split. Qed.

(** A position that cannot be converted turns the acceptance into a
    failure: the success text is built before [log] looks at [verbose]. *)
Example scenario_unprintable_position_run :
  snd (solveAndSubmit example_StringToInteger scenario_unprintable_position
                      example_options initial_world) =
  Returns (mkSolveResult false None
             (Some (VStr "Cannot convert object to primitive value"))).
Proof. vm_compute. reflexivity. Qed.

(** An error that cannot be converted takes the command to its [catch]
    clause. *)
Example action_unprintable_error_run :
  let run := action example_StringToInteger scenario_unprintable_error
               example_cli_options initial_terminal in
  snd run = Returns 1 /\
  last (spinner (fst run)) (Started "") =
  Failed "✗ Unexpected error: Cannot convert object to primitive value" /\
  stdout (world (fst run)) = [].
Proof. vm_compute. repeat split. Qed.

(** A challenge that cannot be converted stops the solver at its first
    iteration. *)
Example challenge_unprintable :
  solveChallenge example_StringToInteger (VObj [("toString", VNum 1)]) (VNum 0)
                 maxIterations_default =
  Throws (ErrorObj "TypeError" "Cannot convert object to primitive value").
Proof. vm_compute. reflexivity. Qed.

(* ------------------------------------------------------------------------- *)
(** ** Instances of the further properties *)
(* ------------------------------------------------------------------------- *)

Lemma X2_witness :
  solveChallenge example_StringToInteger (VStr "abc") VUndefined
                 maxIterations_default =
  Returns ("0", sha256 ("abc" ++ "0")).
Proof.
  apply (proj1 (X2_difficulty_zero_first_nonce example_StringToInteger
                  VUndefined maxIterations_default
                  (or_intror (or_introl eq_refl))
                  ltac:(unfold maxIterations_default; lia))).
Defined.

Lemma X3_witness :
  exists message : string,
    solveChallenge example_StringToInteger (VStr "abc") (VNum (-1)) 5 =
    Throws (ErrorObj "RangeError" message) /\
    (safe_integer (-1) -> message = "Invalid count value: " ++ String_of_number (-1)).
Proof.
  apply (X3_negative_difficulty_is_range_error example_StringToInteger
           (VStr "abc") (-1) 5).
  lia.
Defined.

Lemma X4_witness :
  solveChallenge example_StringToInteger (VStr "hello") (VNum 1)
                 maxIterations_default =
  Returns ("28", "02a13c40ba00dc0fb199d3cbe5b01be59d937775890243fd411bdf001935ffc8").
Proof.
  apply (X4_larger_bound_same_solution example_StringToInteger
           (VStr "hello") (VNum 1) 100 maxIterations_default).
  - vm_compute. reflexivity.
  - unfold maxIterations_default. lia.
Defined.


Lemma X6_witness :
  exists (n n' : Z) (hash' : string),
    "28" = String_of_number n /\
    solveChallenge example_StringToInteger (VStr "hello") (VNum 0) 100 =
    Returns (String_of_number n', hash') /\
    0 <= n' <= n.
Proof.
  apply (X6_lower_difficulty_earlier_nonce example_StringToInteger "hello" 1 0 100
           "28" "02a13c40ba00dc0fb199d3cbe5b01be59d937775890243fd411bdf001935ffc8").
  - vm_compute. reflexivity.
  - lia.
Defined.


Lemma X14_witness :
  sent (fst (solveAndSubmit example_StringToInteger scenario_empty_object
                            example_options initial_world)) =
  (sent initial_world ++
   [GET_request (url example_options);
    POST_request (url example_options) (email example_options) "0"
      (sha256 (ToString (field (VObj []) "challenge") ++ "0"))])%list.
Proof.
  apply (proj1 (X14_zero_difficulty_submits_first_nonce example_StringToInteger
                  scenario_empty_object example_options initial_world (VObj [])
                  eq_refl eq_refl (or_intror (or_introl eq_refl)))).
  exact I.
Defined.

Lemma X15_witness :
  snd (solveAndSubmit example_StringToInteger scenario_null_challenge
                      example_options initial_world) =
  Returns (failure (VStr ("Cannot read properties of " ++ ToString VNull ++
                          " (reading 'pow_required')"))) /\
  sent (fst (solveAndSubmit example_StringToInteger scenario_null_challenge
                            example_options initial_world)) =
  (sent initial_world ++ [GET_request (url example_options)])%list.
Proof.
  apply (X15_null_challenge_is_failure example_StringToInteger
           scenario_null_challenge example_options initial_world VNull);
    reflexivity.
Defined.
